(** * property-app-backend: the HTTP handlers of [src/index.js]

    A shallow embedding of the Express handlers of the property backend
    and of the part of the JavaScript run time they rely on.  Every
    handler is a program over the calls it makes to the external
    service (authentication, tables, object storage); a handler never
    touches anything else, so what it does is what it asks of that
    service and what it answers to the client. *)

From Stdlib Require Import ZArith String Ascii List.
From Stdlib Require Import PrimFloat SpecFloat FloatOps.
From Stdlib Require FloatAxioms Uint63.
From stdpp Require Import base option list strings gmap fin_maps pretty.

#[local] Open Scope string_scope.
#[local] Open Scope Z_scope.

(** ** The JavaScript values and built-ins the handlers use *)

Module JS.

(** The built-ins of the language the handlers call: [split], [pop],
    [parseInt] and [parseFloat], written after their ECMAScript
    definitions.  A JavaScript string is kept as its UTF-8 bytes: the
    separators the code splits on (a space, a dot) and the characters
    the number parsers read are ASCII, so they are single bytes.  A
    Number is a binary64 float. *)

(** [s.split(sep)] for a one-character separator: never empty, one
    more piece than there are separators, empty pieces kept. *)
Fixpoint split (sep : ascii) (s : string) : list string :=
  match s with
  | EmptyString => [EmptyString]
  | String c r =>
      if Ascii.eqb c sep then EmptyString :: split sep r
      else match split sep r with
           | p :: ps => String c p :: ps
           | [] => [String c EmptyString]
           end
  end.

(** [a.pop()] on a freshly built array: its last element. *)
Definition pop (a : list string) : option string := last a.

(** White space as [parseInt] and [parseFloat] skip it (the
    ECMAScript StrWhiteSpaceChar class), read on UTF-8 bytes. *)
Definition ascii_space (n : N) : bool :=
  ((9 <=? n) && (n <=? 13) || (n =? 32))%N.

Definition space3 (a b c : N) : bool :=
  ((a =? 225) && (b =? 154) && (c =? 128)                      (* U+1680 *)
   || (a =? 226) && (b =? 128) && (128 <=? c) && (c <=? 138)   (* U+2000..U+200A *)
   || (a =? 226) && (b =? 128) && ((c =? 168) || (c =? 169))   (* U+2028, U+2029 *)
   || (a =? 226) && (b =? 128) && (c =? 175)                   (* U+202F *)
   || (a =? 226) && (b =? 129) && (c =? 159)                   (* U+205F *)
   || (a =? 227) && (b =? 128) && (c =? 128)                   (* U+3000 *)
   || (a =? 239) && (b =? 187) && (c =? 191))%N.               (* U+FEFF *)

Fixpoint trimStart (s : string) : string :=
  match s with
  | String a r1 =>
      if ascii_space (N_of_ascii a) then trimStart r1
      else match r1 with
           | String b r2 =>
               if ((N_of_ascii a =? 194) && (N_of_ascii b =? 160))%N  (* U+00A0 *)
               then trimStart r2
               else match r2 with
                    | String c r3 =>
                        if space3 (N_of_ascii a) (N_of_ascii b) (N_of_ascii c)
                        then trimStart r3 else s
                    | EmptyString => s
                    end
           | EmptyString => s
           end
  | EmptyString => s
  end.

(** The value of a digit in radix up to 36. *)
Definition digit_value (c : ascii) : option Z :=
  let n := Z.of_N (N_of_ascii c) in
  if (48 <=? n) && (n <=? 57) then Some (n - 48)
  else if (97 <=? n) && (n <=? 122) then Some (n - 87)
  else if (65 <=? n) && (n <=? 90) then Some (n - 55)
  else None.

(** The longest prefix of radix-[R] digits, most significant first,
    and what follows it. *)
Fixpoint take_digits (R : Z) (s : string) : list Z * string :=
  match s with
  | String c r =>
      match digit_value c with
      | Some d =>
          if d <? R then let '(ds, rest) := take_digits R r in (d :: ds, rest)
          else ([], s)
      | None => ([], s)
      end
  | EmptyString => ([], s)
  end.

Definition digits_value (R : Z) (ds : list Z) : Z :=
  fold_left (fun acc d => acc * R + d) ds 0.

(** The Number nearest to [n / d] for positive [n] and [d], ties to
    even: the quotient is taken with more than sixty bits and one
    sticky bit, which the rounding to 53 bits cannot tell from the
    exact ratio. *)
Definition round_ratio (n d : Z) : spec_float :=
  let s := Z.max 0 (Z.log2 d - Z.log2 n + 64) in
  let q := (n * 2 ^ s) / d in
  let sticky := if (n * 2 ^ s) mod d =? 0 then 0 else 1 in
  binary_normalize prec emax (2 * q + sticky) (- s - 1) false.

(** [Number(z)] for a mathematical integer: the nearest double, ties
    to even. *)
Definition number_of_Z (z : Z) : float :=
  SF2Prim (binary_normalize prec emax z 0 false).

(** The Number for the decimal [m * 10 ^ e], [m >= 0] written with
    [nd] digits: the Number of the integer when the exponent is not
    negative, the nearest to the ratio otherwise.  Far outside the
    range of a double the power of ten is not computed: the result is
    infinite or zero whatever [m] is. *)
Definition decimal (m : Z) (nd : Z) (e : Z) : float :=
  if m =? 0 then zero
  else if 400 <? e then infinity
  else if e + nd <? -400 then zero
  else if 0 <=? e then number_of_Z (m * 10 ^ e)
  else SF2Prim (round_ratio m (10 ^ (- e))).

Definition signed (neg : bool) (f : float) : float :=
  if neg then (- f)%float else f.

Definition strip_sign (s : string) : bool * string :=
  match s with
  | String "-" r => (true, r)
  | String "+" r => (false, r)
  | _ => (false, s)
  end.

(** [parseInt(s)] with no radix argument. *)
Definition parseInt (s : string) : float :=
  let '(neg, s1) := strip_sign (trimStart s) in
  let '(R, s2) :=
    match s1 with
    | String "0" (String "x" r) => (16, r)
    | String "0" (String "X" r) => (16, r)
    | _ => (10, s1)
    end in
  match take_digits R s2 with
  | ([], _) => nan
  | (ds, _) => signed neg (number_of_Z (digits_value R ds))
  end.

(** The exponent part of a decimal literal, read only when it has a
    digit: [e], an optional sign, digits. *)
Definition exponent_part (s : string) : Z :=
  match s with
  | String c r =>
      if Ascii.eqb c "e" || Ascii.eqb c "E" then
        let '(neg, r1) := strip_sign r in
        match take_digits 10 r1 with
        | ([], _) => 0
        | (ds, _) => if neg then - digits_value 10 ds else digits_value 10 ds
        end
      else 0
  | EmptyString => 0
  end.

Definition starts_with (p s : string) : bool :=
  String.eqb (substring 0 (String.length p) s) p.

(** [parseFloat(s)]: the longest prefix that is a decimal literal. *)
Definition parseFloat (s : string) : float :=
  let '(neg, s1) := strip_sign (trimStart s) in
  if starts_with "Infinity" s1 then signed neg infinity
  else
    let '(ip, s2) := take_digits 10 s1 in
    let '(fp, s3) :=
      match s2 with
      | String "." r => take_digits 10 r
      | _ => ([], s2)
      end in
    match (ip ++ fp)%list with
    | [] => nan
    | ds =>
        signed neg
          (decimal (digits_value 10 ds) (Z.of_nat (length ds))
                   (exponent_part s3 - Z.of_nat (length fp)))
    end.




End JS.

(** ** JavaScript values *)

Module Value.

(** Values as they travel in JSON bodies and table rows.  An object is
    a finite map from property names to values; a property may be
    present with the value [undefined]. *)
#[warnings="-register-all"]
Inductive jsval : Type :=
  | JUndefined
  | JNull
  | JBool (b : bool)
  | JNum (n : float)
  | JStr (s : string)
  | JObj (o : gmap string jsval)
  | JArr (a : list jsval).

Abbreviation jsobj := (gmap string jsval).

(** [o.k]: reading a property that is not there gives [undefined]. *)
Definition get (o : jsobj) (k : string) : jsval :=
  default JUndefined (o !! k).

(** ToBoolean. *)
Definition truthy (v : jsval) : bool :=
  match v with
  | JUndefined | JNull => false
  | JBool b => b
  | JNum n => negb (is_nan n || is_zero n)
  | JStr s => negb (String.eqb s "")
  | JObj _ | JArr _ => true
  end.

(** A form field or a header: a string, or [undefined] when absent. *)
Definition of_text (t : option string) : jsval :=
  match t with Some s => JStr s | None => JUndefined end.

(** [a === b].  Two objects are the same only when they are the same
    reference; the objects compared in this program come from two
    different replies of the service, so they never are. *)
Definition strict_eq (a b : jsval) : bool :=
  match a, b with
  | JUndefined, JUndefined => true
  | JNull, JNull => true
  | JBool x, JBool y => Bool.eqb x y
  | JNum x, JNum y => PrimFloat.eqb x y
  | JStr x, JStr y => String.eqb x y
  | _, _ => false
  end.

(** What [JSON.stringify] leaves of a value, read back: [None] where
    nothing is written.  A property whose value is [undefined] is
    dropped, an [undefined] array element and a number that is not
    finite are written [null]. *)
Fixpoint json (v : jsval) : option jsval :=
  match v with
  | JUndefined => None
  | JNum n => Some (if is_nan n || is_infinity n then JNull
                    else if is_zero n then JNum zero else v)
  | JObj o => Some (JObj (omap json o))
  | JArr a => Some (JArr (map (fun x => default JNull (json x)) a))
  | _ => Some v
  end.

End Value.

Import JS Value.

(** ** The external service, as the handlers see it *)

(** An error object of the client library, or a thrown [Error]: the
    handlers read nothing of it but [message]. *)
Record js_error := { message : string }.

(** A promise settles: it resolves to a value, or it rejects and the
    [await] throws. *)
Inductive outcome (A : Type) : Type :=
  | Resolved (a : A)
  | Rejected (e : js_error).
Arguments Resolved {A} a.
Arguments Rejected {A} e.

(** The identity the auth service resolves a token to ([data.user]). *)
Record user := { uid : string }.

(** [{ data: { user }, error }] of [supabase.auth.getUser]. *)
Record auth_reply := { auth_user : option user; auth_error : option js_error }.

(** [{ data, error }] of a query on a table. *)
Record pg_reply (A : Type) := { data : option A; error : option js_error }.
Arguments data {A} p.
Arguments error {A} p.

(** [{ error }] of an upload, and [{ data: { publicUrl } }]. *)
Record upload_reply := { uploadError : option js_error }.
Record url_reply := { publicUrl : string }.

(** The file multer leaves in [req.file]. *)
Record file := {
  originalname : string;
  buffer : list Byte.byte;
  mimetype : string
}.

(** Every call the source makes outside the process, with its
    arguments and the type of what it resolves to. *)
Inductive call : Type -> Type :=
  | auth_getUser (token : jsval) : call auth_reply
  | select_all (table columns : string) : call (pg_reply (list jsobj))
  | select_eq_single (table columns column value : string) : call (pg_reply jsobj)
  | insert_select (table : string) (rows : list jsobj) : call (pg_reply (list jsobj))
  | update_eq_select (table : string) (patch : jsobj) (column value : string)
      : call (pg_reply (list jsobj))
  | delete_eq (table column value : string) : call (pg_reply unit)
  | storage_upload (bucket path : string) (body : list Byte.byte) (contentType : string)
      : call upload_reply
  | storage_getPublicUrl (bucket path : string) : call url_reply
  | Date_now : call Z.

(** A handler: it answers, or makes a call and goes on with what the
    call settles to. *)
Inductive prog (R : Type) : Type :=
  | Ret (r : R)
  | Vis {X : Type} (c : call X) (k : outcome X -> prog R).
Arguments Ret {R} r.
Arguments Vis {R X} c k.

(** An [async] function: a program whose own promise resolves or rejects. *)
Definition async (A : Type) : Type := prog (outcome A).

Definition ret {A} (a : A) : async A := Ret (Resolved a).
Definition throw {A} (e : js_error) : async A := Ret (Rejected e).

Fixpoint bind {A B} (m : async A) (f : A -> async B) : async B :=
  match m with
  | Ret (Resolved a) => f a
  | Ret (Rejected e) => Ret (Rejected e)
  | Vis c k => Vis c (fun o => bind (k o) f)
  end.

(** [try { m } catch (e) { h e }]. *)
Fixpoint try_catch {A} (m : async A) (h : js_error -> async A) : async A :=
  match m with
  | Ret (Resolved a) => Ret (Resolved a)
  | Ret (Rejected e) => h e
  | Vis c k => Vis c (fun o => try_catch (k o) h)
  end.

(** [await c]. *)
Definition await {X} (c : call X) : async X := Vis c (fun o => Ret o).

Notation "x <- m ;; k" := (bind m (fun x => k))
  (at level 100, m at next level, right associativity).

(** ** Requests and responses *)

(** [res.status(code).json(body)]; [res.json(body)] leaves the status
    at 200.  A body [undefined] is sent as no body at all. *)
Record response := { status : Z; body : jsval }.

Definition res_json (code : Z) (v : jsval) : response :=
  {| status := code; body := v |}.

Definition error_body (msg : string) : jsval :=
  JObj {[ "error" := JStr msg ]}.

Definition message_body (msg : string) : jsval :=
  JObj {[ "message" := JStr msg ]}.

Definition rows_value (rows : option (list jsobj)) : jsval :=
  match rows with
  | Some l => JArr (JObj <$> l)
  | None => JNull
  end.

Definition row_value (r : option jsobj) : jsval :=
  match r with
  | Some o => JObj o
  | None => JNull
  end.

(** [data[0]]: [undefined] past the end of the array, a [TypeError]
    when [data] is [null]. *)
Definition first_of (rows : option (list jsobj)) : async jsval :=
  match rows with
  | Some l => ret (match l !! 0%nat with Some o => JObj o | None => JUndefined end)
  | None => throw {| message := "Cannot read properties of null (reading '0')" |}
  end.

(** ** The handlers of [src/index.js] *)

(** What a middleware leaves behind: a response, or [next()] with
    [req.user] set. *)
Inductive guard : Type :=
  | Responded (r : response)
  | Next (u : user).

(** [authenticate(req, res, next)]; [authorization] is
    [req.headers.authorization]. *)
Definition authenticate (authorization : option string) : async guard :=
  let authHeader := of_text authorization in
  if negb (truthy authHeader)
  then ret (Responded (res_json 401 (error_body "No token provided")))
  else
    let token := of_text (h ← authorization; split " " h !! 1%nat) in
    try_catch
      (r <- await (auth_getUser token);;
       match auth_error r, auth_user r with
       | None, Some u => ret (Next u)
       | _, _ => ret (Responded (res_json 401 (error_body "Invalid token")))
       end)
      (fun _ => ret (Responded (res_json 401 (error_body "Unauthorized")))).

(** A route that lists [authenticate] before its handler. *)
Definition guarded (authorization : option string)
    (handler : user -> async response) : async response :=
  g <- authenticate authorization;;
  match g with
  | Responded r => ret r
  | Next u => handler u
  end.

(** [GET /api/properties]. *)
Definition list_properties : async response :=
  try_catch
    (r <- await (select_all "properties" "*");;
     match error r with
     | Some e => throw e
     | None => ret (res_json 200 (rows_value (data r)))
     end)
    (fun e => ret (res_json 500 (error_body (message e)))).

(** [x ? parse(x) : null] on a form field. *)
Definition number_or_null (parse : string -> float) (field : option string) : jsval :=
  if truthy (of_text field)
  then match field with Some s => JNum (parse s) | None => JNull end
  else JNull.

(** The extension taken from the uploaded file's name, and the name
    the object is stored under. *)
Definition fileExt (name : string) : string :=
  match pop (split "." name) with
  | Some e => e
  | None => "undefined"
  end.

Definition fileName (now : Z) (name : string) : string :=
  pretty now +:+ "." +:+ fileExt name.

Definition filePath (now : Z) (name : string) : string :=
  "public/" +:+ fileName now name.

(** The record the create handler assembles.  The form fields are the
    text fields multer leaves in [req.body]: strings, or absent. *)
Definition newProperty (userId : string) (form : gmap string string)
    (imageUrl : string) : jsobj :=
  {[ "user_id" := JStr userId;
     "title" := of_text (form !! "title");
     "price" := number_or_null parseInt (form !! "price");
     "image_url" := JStr imageUrl;
     "lat" := number_or_null parseFloat (form !! "lat");
     "lng" := number_or_null parseFloat (form !! "lng") ]}.

(** The end of the create handler, once the image URL is known. *)
Definition insert_property (userId : string) (form : gmap string string)
    (imageUrl : string) : async response :=
  r <- await (insert_select "properties" [newProperty userId form imageUrl]);;
  match error r with
  | Some e => ret (res_json 500 (error_body (message e)))
  | None =>
      p <- first_of (data r);;
      ret (res_json 200 (JObj {[ "message" := JStr "Property added"; "property" := p ]}))
  end.

(** [POST /api/properties], after [authenticate] and
    [upload.single("image")]. *)
Definition create_property (form : gmap string string) (image : option file)
    (u : user) : async response :=
  try_catch
    (let userId := uid u in
     match image with
     | Some f =>
         now <- await Date_now;;
         let path := filePath now (originalname f) in
         up <- await (storage_upload "property-images" path (buffer f) (mimetype f));;
         match uploadError up with
         | Some uploadError =>
             ret (res_json 500
                    (error_body ("Image upload failed: " +:+ message uploadError)))
         | None =>
             publicUrlData <- await (storage_getPublicUrl "property-images" path);;
             insert_property userId form (publicUrl publicUrlData)
         end
     | None => insert_property userId form ""
     end)
    (fun e => ret (res_json 500 (error_body (message e)))).

(** [GET /api/properties/:id]. *)
Definition get_property (id : string) : async response :=
  r <- await (select_eq_single "properties" "*" "id" id);;
  match error r with
  | Some _ => ret (res_json 404 (error_body "Property not found"))
  | None => ret (res_json 200 (row_value (data r)))
  end.

(** [PUT /api/properties/:id], after [authenticate]; [body] is the
    parsed JSON body. *)
Definition update_property (id : string) (body : jsobj) (u : user) : async response :=
  let title := get body "title" in
  let price := get body "price" in
  r <- await (update_eq_select "properties"
                {[ "title" := title; "price" := price ]} "id" id);;
  match error r with
  | Some e => ret (res_json 500 (error_body ("ERROR::::" +:+ message e)))
  | None => v <- first_of (data r);; ret (res_json 200 v)
  end.

(** [DELETE /api/properties/:id], after [authenticate]. *)
Definition delete_property (id : string) (u : user) : async response :=
  let userId := uid u in
  found <- await (select_eq_single "properties" "user_id" "id" id);;
  match error found, data found with
  | None, Some existing =>
      if negb (strict_eq (get existing "user_id") (JStr userId))
      then ret (res_json 403 (error_body "Not authorized to delete this property"))
      else
        r <- await (delete_eq "properties" "id" id);;
        match error r with
        | Some e => ret (res_json 500 (error_body (message e)))
        | None => ret (res_json 200 (message_body "Property deleted"))
        end
  | _, _ => ret (res_json 404 (error_body "Property not found"))
  end.

(** The three guarded routes as Express chains them. *)
Definition post_route (authorization : option string)
    (form : gmap string string) (image : option file) : async response :=
  guarded authorization (create_property form image).

Definition put_route (authorization : option string) (id : string)
    (body : jsobj) : async response :=
  guarded authorization (update_property id body).

Definition delete_route (authorization : option string) (id : string) : async response :=
  guarded authorization (delete_property id).

(** ** Running a handler against a service *)

(** A service: how each call settles, and what it leaves behind. *)
Record backend (S : Type) := { settle : forall X, call X -> S -> outcome X * S }.
Arguments settle {S} b {X} c s.

Inductive event : Type :=
  | Called {X : Type} (c : call X).

Fixpoint run {S R} (B : backend S) (p : prog R) (s : S) : R * S * list event :=
  match p with
  | Ret r => (r, s, [])
  | Vis c k =>
      let '(o, s1) := settle B c s in
      let '(r, s2, tr) := run B (k o) s1 in
      (r, s2, Called c :: tr)
  end.

Definition answer {S R} (B : backend S) (p : prog R) (s : S) : R := (run B p s).1.1.
Definition after {S R} (B : backend S) (p : prog R) (s : S) : S := (run B p s).1.2.
Definition trace {S R} (B : backend S) (p : prog R) (s : S) : list event := (run B p s).2.

(** The calls that change something in the service. *)
Definition is_mutation (e : event) : bool :=
  match e with
  | Called (insert_select _ _) => true
  | Called (update_eq_select _ _ _ _) => true
  | Called (delete_eq _ _ _) => true
  | Called (storage_upload _ _ _ _) => true
  | Called _ => false
  end.

Definition is_deletion (e : event) : bool :=
  match e with
  | Called (delete_eq _ _ _) => true
  | Called _ => false
  end.

Definition is_insertion (e : event) : bool :=
  match e with
  | Called (insert_select _ _) => true
  | Called _ => false
  end.

(** ** A reference service *)

Module World.

(** Modelled from the spec: the external data, auth and storage service
    is not part of the repository.  This is the service the
    specification describes: one table of property records whose
    identifier the service assigns, tokens that resolve to a user or
    do not, and an object store that hands out a public URL per path. *)
Record world := {
  properties : list jsobj;
  next_id : Z;
  sessions : gmap string user;
  objects : gmap string (list Byte.byte);
  clock : Z;
  storage_url : string
}.

(** Modelled from the spec: [.eq(column, value)] keeps the rows whose
    cell is the text [value]. *)
Definition matches (column value : string) (row : jsobj) : bool :=
  strict_eq (get row column) (JStr value).

(** Modelled from the spec: the columns a [select] returns, all of them
    for ["*"], the named one otherwise. *)
Definition project (columns : string) (row : jsobj) : jsobj :=
  if String.eqb columns "*" then row
  else {[ columns := default JNull (row !! columns) ]}.

(** Modelled from the spec: a query that expects exactly one row
    treats none and several alike, as an error. *)
Definition single (rows : list jsobj) : pg_reply jsobj :=
  match rows with
  | [row] => {| data := Some row; error := None |}
  | _ => {| data := None;
            error := Some {| message :=
              "JSON object requested, multiple (or no) rows returned" |} |}
  end.

(** Modelled from the spec: what reaches the table of a JavaScript
    object is what its JSON form holds. *)
Definition sent (o : jsobj) : jsobj := omap json o.

(** Modelled from the spec: an update replaces the fields it names on
    the matching records and leaves all others as they are. *)
Definition patched (column value : string) (patch row : jsobj) : jsobj :=
  if matches column value row then sent patch ∪ row else row.

(** Modelled from the spec: the service assigns the identifier of a
    new record. *)
Fixpoint stored (n : Z) (rows : list jsobj) : list jsobj :=
  match rows with
  | [] => []
  | row :: rest => <[ "id" := JStr (pretty n) ]> (sent row) :: stored (n + 1) rest
  end.

Definition set_properties (w : world) (rows : list jsobj) : world :=
  {| properties := rows; next_id := next_id w; sessions := sessions w;
     objects := objects w; clock := clock w; storage_url := storage_url w |}.

Definition resolve_token (w : world) (token : jsval) : auth_reply :=
  match token with
  | JStr t =>
      if String.eqb t "" then
        {| auth_user := None; auth_error := Some {| message := "Auth session missing!" |} |}
      else
        match sessions w !! t with
        | Some u => {| auth_user := Some u; auth_error := None |}
        | None =>
            {| auth_user := None;
               auth_error := Some {| message := "invalid JWT" |} |}
        end
  | _ => {| auth_user := None; auth_error := Some {| message := "Auth session missing!" |} |}
  end.

(** Modelled from the spec: how the service answers each call. *)
Definition respond (X : Type) (c : call X) (w : world) : outcome X * world :=
  match c in call X return outcome X * world with
  | auth_getUser token => (Resolved (resolve_token w token), w)
  | select_all _ columns =>
      (Resolved {| data := Some (project columns <$> properties w); error := None |}, w)
  | select_eq_single _ columns column value =>
      (Resolved (single (project columns <$> filter (fun r => matches column value r)
                                                     (properties w))), w)
  | insert_select _ rows =>
      let new := stored (next_id w) rows in
      (Resolved {| data := Some new; error := None |},
       {| properties := properties w ++ new;
          next_id := next_id w + Z.of_nat (length rows);
          sessions := sessions w; objects := objects w;
          clock := clock w; storage_url := storage_url w |})
  | update_eq_select _ patch column value =>
      (Resolved {| data := Some (patched column value patch <$>
                                 filter (fun r => matches column value r) (properties w));
                   error := None |},
       set_properties w (patched column value patch <$> properties w))
  | delete_eq _ column value =>
      (Resolved {| data := None; error := None |},
       set_properties w (filter (fun r => negb (matches column value r)) (properties w)))
  | storage_upload _ path body _ =>
      match objects w !! path with
      | Some _ =>
          (Resolved {| uploadError := Some {| message := "The resource already exists" |} |}, w)
      | None =>
          (Resolved {| uploadError := None |},
           {| properties := properties w; next_id := next_id w; sessions := sessions w;
              objects := <[ path := body ]> (objects w);
              clock := clock w; storage_url := storage_url w |})
      end
  | storage_getPublicUrl bucket path =>
      (Resolved {| publicUrl :=
         storage_url w +:+ "/object/public/" +:+ bucket +:+ "/" +:+ path |}, w)
  | Date_now => (Resolved (clock w), w)
  end.

Definition service : backend world := {| settle := respond |}.

(** The same service when the auth endpoint cannot be reached: the
    call rejects. *)
Definition respond_auth_down (X : Type) (c : call X) (w : world) : outcome X * world :=
  match c in call X return outcome X * world with
  | auth_getUser _ => (Rejected {| message := "fetch failed" |}, w)
  | c' => respond _ c' w
  end.

Definition service_auth_down : backend world := {| settle := respond_auth_down |}.

End World.

(** ** The specification's own words, for comparison with the code *)

Module Spec.

(** The header the specification asks for: the word Bearer, one
    space, and a token. *)
Definition bearer_form (h : string) : bool :=
  starts_with "Bearer " h && (7 <? String.length h)%nat.

(** The words of a header: the maximal runs of characters that are not
    white space. *)
Fixpoint words_from (current : option string) (s : string) : list string :=
  match s with
  | EmptyString => match current with Some w => [w] | None => [] end
  | String c r =>
      if ascii_space (N_of_ascii c) then
        match current with
        | Some w => w :: words_from None r
        | None => words_from None r
        end
      else words_from (Some (default "" current +:+ String c "")) r
  end.

Definition second_word (h : string) : option string :=
  words_from None h !! 1%nat.

(** The extension of a file name: what follows its last dot; a name
    without a dot has none. *)
Fixpoint extension (name : string) : option string :=
  match name with
  | EmptyString => None
  | String c r =>
      match extension r with
      | Some e => Some e
      | None => if Ascii.eqb c "." then Some r else None
      end
  end.

End Spec.

(** ** A small instance of the service, to run the handlers on *)

Module Sample.

Import World.

Definition alice : user := {| uid := "user-a" |}.
Definition bob : user := {| uid := "user-b" |}.

Definition lake_house : jsobj :=
  {[ "id" := JStr "1"; "user_id" := JStr "user-a"; "title" := JStr "Lake House";
     "price" := JNum 250000; "image_url" := JStr ""; "lat" := JNull; "lng" := JNull ]}.

Definition photo : file :=
  {| originalname := "house.png"; buffer := []; mimetype := "image/png" |}.

(** One record, owned by alice; a token for alice and one for bob. *)
Definition w0 : world :=
  {| properties := [lake_house];
     next_id := 2;
     sessions := {[ "token-a" := alice; "token-b" := bob ]};
     objects := ∅;
     clock := 1700000000000;
     storage_url := "https://project.supabase.co/storage/v1" |}.

(** The same, with an object already stored under the name the clock
    gives to a [.png] upload. *)
Definition w_taken : world :=
  {| properties := [lake_house];
     next_id := 2;
     sessions := {[ "token-a" := alice; "token-b" := bob ]};
     objects := {[ "public/1700000000000.png" := [] ]};
     clock := 1700000000000;
     storage_url := "https://project.supabase.co/storage/v1" |}.

Definition lake_form : gmap string string :=
  {[ "title" := "Lake House"; "price" := "250000"; "lat" := "47.6"; "lng" := "-122.3" ]}.

End Sample.

(** ** The requests that go through the guard *)

Inductive guarded_request : Type :=
  | Create (form : gmap string string) (image : option file)
  | Update (id : string) (body : jsobj)
  | Delete (id : string).

Definition handler_of (q : guarded_request) : user -> async response :=
  match q with
  | Create form image => create_property form image
  | Update id body => update_property id body
  | Delete id => delete_property id
  end.

Definition route (authorization : option string) (q : guarded_request) : async response :=
  match q with
  | Create form image => post_route authorization form image
  | Update id body => put_route authorization id body
  | Delete id => delete_route authorization id
  end.

(** The token [authenticate] hands to the auth service. *)
Definition token_of (authorization : option string) : jsval :=
  of_text (h ← authorization; split " " h !! 1%nat).

(** Whether a character occurs in a string. *)
Fixpoint occurs (c : ascii) (s : string) : bool :=
  match s with
  | EmptyString => false
  | String d r => Ascii.eqb d c || occurs c r
  end.

(** The rows an insertion hands to the table. *)
Definition inserted (e : event) : list jsobj :=
  match e with
  | Called (insert_select _ rows) => rows
  | Called _ => []
  end.

(** ** The rest of [src/index.js]: the origin filter and the login link *)

(** [Array.prototype.includes] compares with SameValueZero: [===],
    but for NaN, which is itself. *)
Definition same_value_zero (a b : jsval) : bool :=
  match a, b with
  | JNum x, JNum y => PrimFloat.eqb x y || (is_nan x && is_nan y)
  | _, _ => strict_eq a b
  end.

Definition includes (a : list jsval) (v : jsval) : bool :=
  existsb (fun x => same_value_zero x v) a.

(** [allowedOrigins]; [FRONTEND_URL] is [process.env.FRONTEND_URL], a
    string or [undefined]. *)
Definition allowedOrigins (FRONTEND_URL : option string) : list jsval :=
  [JStr "http://localhost:3000"; of_text FRONTEND_URL].

(** What the [origin] function of the cors options hands to its
    callback: [(null, true)], or an [Error]. *)
Inductive cors_verdict : Type :=
  | Allowed
  | Refused (e : js_error).

(** The [origin] function; [origin] is the Origin header of the
    request, a string or [undefined]. *)
Definition cors_origin (FRONTEND_URL origin : option string) : cors_verdict :=
  if negb (truthy (of_text origin)) then Allowed
  else if includes (allowedOrigins FRONTEND_URL) (of_text origin) then Allowed
  else Refused {| message :=
         "Origin " +:+ default "undefined" origin +:+ " not allowed by CORS" |}.

(** The argument of [supabase.auth.admin.generateLink] and what the
    handler reads of its reply: [{ error }]; the reply's [data] holds
    the link. *)
Record link_request := {
  link_type : string;
  link_email : jsval;
  link_redirectTo : string
}.

Record link_reply := { link_data : jsval; link_error : option js_error }.

(** The login handler makes at most one call, the generation of the
    link: it answers at once, or asks and answers from the reply. *)
Inductive login_step : Type :=
  | Answered (r : response)
  | GenerateLink (q : link_request) (k : outcome link_reply -> outcome response).

(** [POST /api/send-login-link]; [body] is the parsed JSON body.  An
    [undefined] [FRONTEND_URL] is written ["undefined"] by the
    template. *)
Definition send_login_link (FRONTEND_URL : option string) (body : jsobj) : login_step :=
  let email := get body "email" in
  if negb (truthy email)
  then Answered (res_json 400 (error_body "Email is required"))
  else
    GenerateLink
      {| link_type := "magiclink";
         link_email := email;
         link_redirectTo := default "undefined" FRONTEND_URL +:+ "/dashboard" |}
      (fun o =>
         match o with
         | Rejected e => Rejected e
         | Resolved r =>
             match link_error r with
             | Some e => Resolved (res_json 400 (error_body (message e)))
             | None =>
                 Resolved (res_json 200
                             (message_body "Check your email for the magic link."))
             end
         end).

(** The status codes each guarded handler can answer with. *)
Definition codes (q : guarded_request) : list Z :=
  match q with
  | Create _ _ => [200; 500]
  | Update _ _ => [200; 500]
  | Delete _ => [200; 403; 404; 500]
  end.

Module Cases.

Import World.

(** The reference service when the table refuses every insertion. *)
Definition respond_insert_refused (X : Type) (c : call X) (w : world)
    : outcome X * world :=
  match c in call X return outcome X * world with
  | insert_select _ _ =>
      (Resolved {| data := None;
                   error := Some {| message := "permission denied for table properties" |} |},
       w)
  | c' => respond _ c' w
  end.

Definition service_insert_refused : backend world :=
  {| settle := respond_insert_refused |}.

(** A service that cannot be reached: every call rejects. *)
Definition service_down : backend world :=
  {| settle := fun X (c : call X) (w : world) =>
                 (Rejected {| message := "fetch failed" |}, w) |}.

(** A record nobody owns: its [user_id] is [null]. *)
Definition abandoned : jsobj :=
  {[ "id" := JStr "3"; "user_id" := JNull; "title" := JStr "Shed" ]}.

Definition w_abandoned : world :=
  {| properties := [Sample.lake_house; abandoned];
     next_id := 4;
     sessions := {[ "token-a" := Sample.alice; "token-b" := Sample.bob ]};
     objects := ∅;
     clock := 1700000000000;
     storage_url := "https://project.supabase.co/storage/v1" |}.

End Cases.


(** Going through the calls of a trace one by one, for a fact about
    the rows they insert. *)
Ltac each_call He Hrow :=
  repeat (apply elem_of_cons in He as [-> | He]);
  try (by apply elem_of_nil in He);
  cbn in Hrow;
  try (by apply elem_of_nil in Hrow);
  try (apply list_elem_of_singleton in Hrow as ->).

(** * Properties *)

(** ** Running programs *)

Section Run.

Context {S : Type} (B : backend S).

Lemma run_bind {A C} (m : async A) (f : A -> async C) (s : S) :
  run B (bind m f) s =
    match run B m s with
    | (Resolved a, s1, t1) =>
        let '(r, s2, t2) := run B (f a) s1 in (r, s2, (t1 ++ t2)%list)
    | (Rejected e, s1, t1) => (Rejected e, s1, t1)
    end.
Proof.
  revert s. induction m as [[a|e]|X c k IH]; intros s; cbn.
  - by destruct (run B (f a) s) as [[r s2] t2].
  - done.
  - destruct (settle B c s) as [o s1]. rewrite IH.
    destruct (run B (k o) s1) as [[[a|e] s2] t1]; [|done].
    by destruct (run B (f a) s2) as [[r s3] t2].
Qed.

Lemma run_try_catch {A} (m : async A) (h : js_error -> async A) (s : S) :
  run B (try_catch m h) s =
    match run B m s with
    | (Resolved a, s1, t1) => (Resolved a, s1, t1)
    | (Rejected e, s1, t1) =>
        let '(r, s2, t2) := run B (h e) s1 in (r, s2, (t1 ++ t2)%list)
    end.
Proof.
  revert s. induction m as [[a|e]|X c k IH]; intros s; cbn.
  - done.
  - by destruct (run B (h e) s) as [[r s2] t2].
  - destruct (settle B c s) as [o s1]. rewrite IH.
    destruct (run B (k o) s1) as [[[a|e] s2] t1]; [done|].
    by destruct (run B (h e) s2) as [[r s3] t2].
Qed.

Lemma run_await {X} (c : call X) (s : S) :
  run B (await c) s = ((settle B c s).1, (settle B c s).2, [Called c]).
Proof. cbn. by destruct (settle B c s). Qed.

End Run.

(** ** What the reference service answers *)

Lemma owner_cell_projected (row : jsobj) (owner : string) :
  strict_eq (get (World.project "user_id" row) "user_id") (JStr owner)
  = strict_eq (get row "user_id") (JStr owner).
Proof.
  unfold World.project, get. cbn [String.eqb Ascii.eqb Bool.eqb].
  rewrite lookup_singleton_eq. by destruct (row !! "user_id") as [[]|].
Qed.

Lemma single_one {A} (f : A -> jsobj) (x : A) :
  World.single (f <$> [x]) = {| data := Some (f x); error := None |}.
Proof. done. Qed.

Lemma single_none_or_many {A} (f : A -> jsobj) (l : list A) :
  length l ≠ 1%nat ->
  World.single (f <$> l)
  = {| data := None;
       error := Some {| message :=
         "JSON object requested, multiple (or no) rows returned" |} |}.
Proof. destruct l as [|x [|y l]]; cbn; [done|lia|done]. Qed.

(** ** Deleting a property *)

Section Delete.

Context {S : Type} (B : backend S).

(** Whatever the service answers, the delete handler starts with the
    lookup of the owner, and asks for a deletion only after the lookup
    resolved, without an error, to a record whose owner is the caller. *)
Lemma delete_property_run (id : string) (u : user) (s : S) :
  let lookup := select_eq_single "properties" "user_id" "id" id in
  let removal := delete_eq "properties" "id" id in
  run B (delete_property id u) s =
    match settle B lookup s with
    | (Rejected e, s1) => (Rejected e, s1, [Called lookup])
    | (Resolved {| data := Some existing; error := None |}, s1) =>
        if strict_eq (get existing "user_id") (JStr (uid u)) then
          match settle B removal s1 with
          | (Rejected e, s2) =>
              (Rejected e, s2, [Called lookup; Called removal])
          | (Resolved {| error := Some e |}, s2) =>
              (Resolved (res_json 500 (error_body (message e))), s2,
               [Called lookup; Called removal])
          | (Resolved {| error := None |}, s2) =>
              (Resolved (res_json 200 (message_body "Property deleted")), s2,
               [Called lookup; Called removal])
          end
        else
          (Resolved (res_json 403 (error_body "Not authorized to delete this property")),
           s1, [Called lookup])
    | (Resolved _, s1) =>
        (Resolved (res_json 404 (error_body "Property not found")), s1,
         [Called lookup])
    end.
Proof.
  unfold delete_property. cbn.
  destruct (settle B _ s) as [[[d [e|]]|e] s1]; cbn; try done.
  - by destruct d.
  - destruct d as [existing|]; cbn; [|done].
    destruct (strict_eq _ _); cbn; [|done].
    by destruct (settle B _ s1) as [[[d' [e'|]]|e'] s2].
Qed.

End Delete.

(** C1.  For every delete request for identifier [id] authenticated as
    user [u].  Against any service: a deletion is among the calls of
    the handler exactly when the lookup of the owner resolved, without
    an error, to a record whose owner is [u].  Against the reference
    service: when no record (or more than one) has the identifier the
    answer is 404 and the service is left as it was after the lookup
    alone; when the one record is owned by somebody else the answer is
    403, the service is unchanged and the lookup is the only call;
    when it is owned by [u] the deletion is issued, the record is gone
    and the answer is the confirmation message, not the record. *)
Theorem delete_property_owner_only :
  (forall (S : Type) (B : backend S) (s : S) (id : string) (u : user),
      existsb is_deletion (trace B (delete_property id u) s) = true <->
      exists existing s1,
        settle B (select_eq_single "properties" "user_id" "id" id) s
        = (Resolved {| data := Some existing; error := None |}, s1)
        /\ strict_eq (get existing "user_id") (JStr (uid u)) = true)
  /\ (forall (w : World.world) (id : string) (u : user),
      let lookup := Called (select_eq_single "properties" "user_id" "id" id) in
      let removal := Called (delete_eq "properties" "id" id) in
      match filter (fun r => World.matches "id" id r) (World.properties w) with
      | [row] =>
          if strict_eq (get row "user_id") (JStr (uid u)) then
            run World.service (delete_property id u) w
            = (Resolved (res_json 200 (message_body "Property deleted")),
               World.set_properties w
                 (filter (fun r => negb (World.matches "id" id r)) (World.properties w)),
               [lookup; removal])
          else
            run World.service (delete_property id u) w
            = (Resolved (res_json 403 (error_body "Not authorized to delete this property")),
               w, [lookup])
      | _ =>
          run World.service (delete_property id u) w
          = (Resolved (res_json 404 (error_body "Property not found")), w, [lookup])
      end).
Proof.
  split.
  - intros S B s id u. unfold trace. rewrite delete_property_run. cbv zeta. split.
    + destruct (settle B _ s) as [[[[existing|] [e|]]|e] s1]; cbn; try done.
      destruct (strict_eq _ _) eqn:Hown; cbn; [|done].
      intros _. by exists existing, s1.
    + intros (existing & s1 & -> & ->).
      by destruct (settle B _ s1) as [[[d [e|]]|e] s2].
  - intros w id u. cbv zeta. rewrite delete_property_run. cbv zeta.
    cbn [settle World.service World.respond].
    destruct (filter _ (World.properties w)) as [|row [|row' rows]] eqn:Hrows.
    + done.
    + rewrite single_one, owner_cell_projected.
      by destruct (strict_eq _ _).
    + by rewrite single_none_or_many.
Qed.

(** ** Fetching one property *)

Lemma get_property_run {S : Type} (B : backend S) (id : string) (s : S) :
  let query := select_eq_single "properties" "*" "id" id in
  run B (get_property id) s =
    match settle B query s with
    | (Rejected e, s1) => (Rejected e, s1, [Called query])
    | (Resolved {| data := d; error := Some _ |}, s1) =>
        (Resolved (res_json 404 (error_body "Property not found")), s1, [Called query])
    | (Resolved {| data := d; error := None |}, s1) =>
        (Resolved (res_json 200 (row_value d)), s1, [Called query])
    end.
Proof.
  unfold get_property. cbn.
  by destruct (settle B _ s) as [[[d [e|]]|e] s1].
Qed.

Lemma project_all (rows : list jsobj) : World.project "*" <$> rows = rows.
Proof. induction rows as [|r rows IH]; cbn; [done|]. by f_equal. Qed.

(** C2.  For every get-single-property request.  Against the reference
    service the answer is 404 with the body [{error: "Property not
    found"}] when the identifier has no record or more than one, and
    the one record, with status 200, otherwise.  Against any service
    the handler answers 404 with that body or 200 with one object (or
    [null]): never a 500, never a list. *)
Theorem get_property_single_or_404 :
  (forall (w : World.world) (id : string),
      answer World.service (get_property id) w =
        match filter (fun r => World.matches "id" id r) (World.properties w) with
        | [row] => Resolved (res_json 200 (JObj row))
        | _ => Resolved (res_json 404 (error_body "Property not found"))
        end)
  /\ (forall (S : Type) (B : backend S) (s : S) (id : string) (r : response),
      answer B (get_property id) s = Resolved r ->
      (r = res_json 404 (error_body "Property not found")
       \/ status r = 200 /\ (body r = JNull \/ exists row, body r = JObj row))
      /\ status r <> 500 /\ (forall rows, body r <> JArr rows)).
Proof.
  split.
  - intros w id. unfold answer. rewrite get_property_run.
    cbn [settle World.service World.respond]. rewrite project_all.
    by destruct (filter _ (World.properties w)) as [|row [|row' rows]].
  - intros S B s id r. unfold answer. rewrite get_property_run.
    destruct (settle B _ s) as [[[d [e|]]|e] s1]; cbn; intros [= <-]; cbn.
    + split; [by left|]. split; [lia|done].
    + split; [|split; [lia|by destruct d]].
      right. split; [done|]. destruct d as [row|]; cbn; [right; by exists row|by left].
Qed.

(** ** The authentication guard *)

Section Guard.

Context {S : Type} (B : backend S).

Lemma authenticate_run (authorization : option string) (s : S) :
  let ask := auth_getUser (token_of authorization) in
  run B (authenticate authorization) s =
    if negb (truthy (of_text authorization)) then
      (Resolved (Responded (res_json 401 (error_body "No token provided"))), s, [])
    else
      match settle B ask s with
      | (Resolved {| auth_user := Some u; auth_error := None |}, s1) =>
          (Resolved (Next u), s1, [Called ask])
      | (Resolved _, s1) =>
          (Resolved (Responded (res_json 401 (error_body "Invalid token"))), s1,
           [Called ask])
      | (Rejected _, s1) =>
          (Resolved (Responded (res_json 401 (error_body "Unauthorized"))), s1,
           [Called ask])
      end.
Proof.
  unfold authenticate, token_of. cbv zeta.
  destruct (negb (truthy (of_text authorization))); [done|].
  rewrite run_try_catch, run_bind, run_await.
  destruct (settle B _ s) as [[[[u|] [e|]]|e] s1]; by cbn.
Qed.

Lemma guarded_run (authorization : option string)
    (handler : user -> async response) (s : S) :
  run B (guarded authorization handler) s =
    match run B (authenticate authorization) s with
    | (Resolved (Responded r), s1, t) => (Resolved r, s1, t)
    | (Resolved (Next u), s1, t) =>
        let '(o, s2, t2) := run B (handler u) s1 in (o, s2, (t ++ t2)%list)
    | (Rejected e, s1, t) => (Rejected e, s1, t)
    end.
Proof.
  unfold guarded. rewrite run_bind.
  destruct (run B (authenticate authorization) s) as [[[[r|u]|e] s1] t]; cbn; try done.
  by rewrite app_nil_r.
Qed.

Lemma route_guarded (authorization : option string) (q : guarded_request) :
  route authorization q = guarded authorization (handler_of q).
Proof. by destruct q. Qed.

End Guard.

Lemma split_without_separator (c : ascii) (s : string) :
  occurs c s = false -> split c s = [s].
Proof.
  induction s as [|d r IH]; cbn; [done|].
  destruct (Ascii.eqb d c); cbn; [done|]. intros Hr. by rewrite (IH Hr).
Qed.

(** Against C3 as stated.  The form the specification asks of the
    header is not what the guard checks: a header with another scheme
    whose second piece is a valid token goes through, and the record
    is deleted. *)
Lemma guard_admits_other_scheme :
  Spec.bearer_form "Basic token-a" = false
  /\ run World.service (route (Some "Basic token-a") (Delete "1")) Sample.w0
     = (Resolved (res_json 200 (message_body "Property deleted")),
        World.set_properties Sample.w0 [],
        [Called (auth_getUser (JStr "token-a"));
         Called (select_eq_single "properties" "user_id" "id" "1");
         Called (delete_eq "properties" "id" "1")]).
Proof. split; [done|]. by vm_compute. Qed.

(** C3, as amended.  For every create, update or delete request and
    whatever the service answers: the guard answers 401 without any
    call when the Authorization header is missing or empty; otherwise
    it asks the auth service to resolve the second piece of the header
    split at its spaces ([undefined] when there is none), answers 401
    when that call reports an error or no user or throws, and in these
    cases the auth call is the only call made, so no handler has run
    and nothing was mutated; when the call resolves to a user, the
    handler runs with that user, in the state the auth call left.  The
    form of the header is not looked at beyond this. *)
Theorem guard_rejects_what_does_not_resolve :
  forall (S : Type) (B : backend S) (s : S)
         (authorization : option string) (q : guarded_request),
    let ask := auth_getUser (token_of authorization) in
    if negb (truthy (of_text authorization)) then
      run B (route authorization q) s
      = (Resolved (res_json 401 (error_body "No token provided")), s, [])
    else
      match settle B ask s with
      | (Resolved {| auth_user := Some u; auth_error := None |}, s1) =>
          run B (route authorization q) s
          = (let '(o, s2, t) := run B (handler_of q u) s1 in (o, s2, Called ask :: t))
      | (Resolved _, s1) =>
          run B (route authorization q) s
          = (Resolved (res_json 401 (error_body "Invalid token")), s1, [Called ask])
          /\ existsb is_mutation (trace B (route authorization q) s) = false
      | (Rejected _, s1) =>
          run B (route authorization q) s
          = (Resolved (res_json 401 (error_body "Unauthorized")), s1, [Called ask])
          /\ existsb is_mutation (trace B (route authorization q) s) = false
      end.
Proof.
  intros S B s authorization q. cbv zeta. unfold trace.
  rewrite route_guarded, guarded_run, authenticate_run. cbv zeta.
  destruct (negb (truthy (of_text authorization))); [done|].
  destruct (settle B _ s) as [[[[u|] [e|]]|e] s1]; by cbn.
Qed.

(** ** Creating a property *)

Section Create.

Context {S : Type} (B : backend S).

Lemma insert_property_run (userId : string) (form : gmap string string)
    (imageUrl : string) (s : S) :
  let put := insert_select "properties" [newProperty userId form imageUrl] in
  exists o, run B (insert_property userId form imageUrl) s
            = (o, (settle B put s).2, [Called put])
    /\ forall r, o = Resolved r -> status r = 200 ->
         exists d, (settle B put s).1 = Resolved {| data := Some d; error := None |}.
Proof.
  unfold insert_property. cbn.
  destruct (settle B _ s) as [[[d [e|]]|e] s1]; cbn.
  - eexists; split; [done|]. by intros r [= <-].
  - destruct d as [l|]; cbn; (eexists; split; [done|]).
    + intros r _ _. by exists l.
    + by intros r.
  - eexists; split; [done|]. by intros r.
Qed.

(** The create handler, call by call: without an image it goes
    straight to the insertion with an empty image URL; with an image
    it reads the clock, uploads under the path made of it, gives up
    with the prefixed message when the upload reports an error, and
    otherwise asks for the public URL of that path and inserts with it.
    A call that rejects ends in the handler's [catch]. *)
Lemma create_property_run (form : gmap string string) (image : option file)
    (u : user) (s : S) :
  run B (create_property form image u) s =
    let caught (r : outcome response * S * list event) :=
      match r with
      | (Rejected e, s1, t) => (Resolved (res_json 500 (error_body (message e))), s1, t)
      | _ => r
      end in
    match image with
    | None => caught (run B (insert_property (uid u) form "") s)
    | Some f =>
        match settle B Date_now s with
        | (Rejected e, s1) =>
            (Resolved (res_json 500 (error_body (message e))), s1, [Called Date_now])
        | (Resolved now, s1) =>
            let path := filePath now (originalname f) in
            let put := storage_upload "property-images" path (buffer f) (mimetype f) in
            let ask := storage_getPublicUrl "property-images" path in
            match settle B put s1 with
            | (Rejected e, s2) =>
                (Resolved (res_json 500 (error_body (message e))), s2,
                 [Called Date_now; Called put])
            | (Resolved {| uploadError := Some e |}, s2) =>
                (Resolved (res_json 500
                             (error_body ("Image upload failed: " +:+ message e))),
                 s2, [Called Date_now; Called put])
            | (Resolved {| uploadError := None |}, s2) =>
                match settle B ask s2 with
                | (Rejected e, s3) =>
                    (Resolved (res_json 500 (error_body (message e))), s3,
                     [Called Date_now; Called put; Called ask])
                | (Resolved url, s3) =>
                    let '(o, s4, t) :=
                      caught (run B (insert_property (uid u) form (publicUrl url)) s3) in
                    (o, s4, Called Date_now :: Called put :: Called ask :: t)
                end
            end
        end
    end.
Proof.
  unfold create_property. rewrite run_try_catch. cbv zeta.
  destruct image as [f|].
  - rewrite run_bind, run_await.
    destruct (settle B Date_now s) as [[now|e] s1]; cbn [fst snd]; [|done].
    rewrite run_bind, run_await.
    destruct (settle B _ s1) as [[[[e|]]|e] s2]; cbn [fst snd uploadError]; [done| |done].
    rewrite run_bind, run_await.
    destruct (settle B _ s2) as [[url|e] s3]; cbn [fst snd]; [|done].
    destruct (run B (insert_property _ _ _) s3) as [[[r|e] s4] t]; cbn; [done|].
    by rewrite app_nil_r.
  - destruct (run B (insert_property _ _ _) s) as [[[r|e] s4] t]; cbn; [done|].
    by rewrite app_nil_r.
Qed.

End Create.

Lemma newProperty_owner (userId : string) (form : gmap string string) (imageUrl : string) :
  newProperty userId form imageUrl !! "user_id" = Some (JStr userId).
Proof. done. Qed.

Lemma newProperty_image_url (userId : string) (form : gmap string string)
    (imageUrl : string) :
  newProperty userId form imageUrl !! "image_url" = Some (JStr imageUrl).
Proof. done. Qed.

Section CreateTrace.

Context {S : Type} (B : backend S).

(** The calls of the create handler, in order. *)
Lemma create_property_trace (form : gmap string string) (image : option file)
    (u : user) (s : S) :
  trace B (create_property form image u) s =
    match image with
    | None => [Called (insert_select "properties" [newProperty (uid u) form ""])]
    | Some f =>
        match settle B Date_now s with
        | (Rejected _, _) => [Called Date_now]
        | (Resolved now, s1) =>
            let path := filePath now (originalname f) in
            let put := storage_upload "property-images" path (buffer f) (mimetype f) in
            let ask := storage_getPublicUrl "property-images" path in
            match settle B put s1 with
            | (Resolved {| uploadError := None |}, s2) =>
                match settle B ask s2 with
                | (Rejected _, _) => [Called Date_now; Called put; Called ask]
                | (Resolved url, _) =>
                    [Called Date_now; Called put; Called ask;
                     Called (insert_select "properties"
                               [newProperty (uid u) form (publicUrl url)])]
                end
            | _ => [Called Date_now; Called put]
            end
        end
    end.
Proof.
  unfold trace. rewrite create_property_run. cbv zeta.
  destruct image as [f|].
  - destruct (settle B Date_now s) as [[now|e] s1]; [|done].
    destruct (settle B _ s1) as [[[[e|]]|e] s2]; [done| |done].
    destruct (settle B _ s2) as [[url|e] s3]; [|done].
    destruct (insert_property_run B (uid u) form (publicUrl url) s3) as (o & -> & _).
    by destruct o.
  - destruct (insert_property_run B (uid u) form "" s) as (o & -> & _).
    by destruct o.
Qed.

(** Whatever is inserted by the create handler is the record it
    assembled for the caller, with some image URL. *)
Lemma create_property_inserts (form : gmap string string) (image : option file)
    (u : user) (s : S) (e : event) (row : jsobj) :
  e ∈ trace B (create_property form image u) s -> row ∈ inserted e ->
  exists imageUrl, row = newProperty (uid u) form imageUrl
                   /\ (image = None -> imageUrl = "").
Proof.
  rewrite create_property_trace. cbv zeta.
  destruct image as [f|].
  - destruct (settle B Date_now s) as [[now|e0] s1].
    + destruct (settle B _ s1) as [[[[e1|]]|e1] s2].
      * intros He Hrow. by each_call He Hrow.
      * destruct (settle B _ s2) as [[url|e2] s3]; intros He Hrow.
        -- each_call He Hrow. by exists (publicUrl url).
        -- by each_call He Hrow.
      * intros He Hrow. by each_call He Hrow.
    + intros He Hrow. by each_call He Hrow.
  - intros He Hrow. each_call He Hrow. by exists "".
Qed.

(** An answer 200 of the create handler comes after an insertion. *)
Lemma create_property_success_inserted (form : gmap string string)
    (image : option file) (u : user) (s : S) (r : response) :
  answer B (create_property form image u) s = Resolved r -> status r = 200 ->
  existsb is_insertion (trace B (create_property form image u) s) = true.
Proof.
  rewrite create_property_trace. unfold answer. rewrite create_property_run. cbv zeta.
  destruct image as [f|]; [|done].
  destruct (settle B Date_now s) as [[now|e0] s1]; [|by intros [= <-]].
  destruct (settle B _ s1) as [[[[e1|]]|e1] s2]; [by intros [= <-]| |by intros [= <-]].
  destruct (settle B _ s2) as [[url|e2] s3]; [done|by intros [= <-]].
Qed.

End CreateTrace.

(** The create handler reads four fields of the form and no other. *)
Lemma create_property_reads_four_fields (form : gmap string string)
    (image : option file) (u : user) (k v : string) :
  k <> "title" -> k <> "price" -> k <> "lat" -> k <> "lng" ->
  create_property (<[ k := v ]> form) image u = create_property form image u.
Proof.
  intros Ht Hp Hlat Hlng.
  unfold create_property, insert_property, newProperty.
  by rewrite !lookup_insert_ne.
Qed.

(** C4.  For every create request authenticated as user [u] and
    whatever the service answers: every record the handler hands to
    the table has [user_id] equal to the identifier of [u]; an answer
    200 comes after such an insertion; and a [user_id] or [owner]
    field supplied in the body changes nothing of what the handler
    does. *)
Theorem create_property_owner_is_caller :
  (forall (S : Type) (B : backend S) (s : S) (form : gmap string string)
          (image : option file) (u : user) (e : event) (row : jsobj),
      e ∈ trace B (create_property form image u) s -> row ∈ inserted e ->
      row !! "user_id" = Some (JStr (uid u)))
  /\ (forall (S : Type) (B : backend S) (s : S) (form : gmap string string)
             (image : option file) (u : user) (r : response),
      answer B (create_property form image u) s = Resolved r -> status r = 200 ->
      existsb is_insertion (trace B (create_property form image u) s) = true)
  /\ (forall (form : gmap string string) (image : option file) (u : user)
             (supplied : string),
      create_property (<[ "user_id" := supplied ]> form) image u
      = create_property form image u
      /\ create_property (<[ "owner" := supplied ]> form) image u
         = create_property form image u).
Proof.
  split; [|split].
  - intros S B s form image u e row He Hrow.
    destruct (create_property_inserts B form image u s e row He Hrow) as (url & -> & _).
    apply newProperty_owner.
  - intros S B s form image u r. apply create_property_success_inserted.
  - intros form image u supplied.
    split; by apply create_property_reads_four_fields.
Qed.

(** ** A failed upload *)

(** C6.  For every create request with an image.  Against any service:
    when the upload resolves with an error, the handler answers 500
    with the message ["Image upload failed: "] followed by the error's
    message, and the clock and the upload are the only calls made: no
    record is inserted.  Against the reference service, where the
    upload errors because the path is taken: the answer is that 500
    and the service is left exactly as it was. *)
Theorem create_property_upload_error :
  (forall (S : Type) (B : backend S) (s s1 s2 : S) (form : gmap string string)
          (f : file) (u : user) (now : Z) (e : js_error),
      let put := storage_upload "property-images" (filePath now (originalname f))
                   (buffer f) (mimetype f) in
      settle B Date_now s = (Resolved now, s1) ->
      settle B put s1 = (Resolved {| uploadError := Some e |}, s2) ->
      run B (create_property form (Some f) u) s
      = (Resolved (res_json 500 (error_body ("Image upload failed: " +:+ message e))),
         s2, [Called Date_now; Called put])
      /\ existsb is_insertion (trace B (create_property form (Some f) u) s) = false)
  /\ (forall (w : World.world) (form : gmap string string) (f : file) (u : user),
      is_Some (World.objects w !! filePath (World.clock w) (originalname f)) ->
      answer World.service (create_property form (Some f) u) w
      = Resolved (res_json 500
                    (error_body "Image upload failed: The resource already exists"))
      /\ after World.service (create_property form (Some f) u) w = w).
Proof.
  split.
  - intros S B s s1 s2 form f u now e put Hnow Hput. unfold trace.
    rewrite create_property_run. cbv zeta. rewrite Hnow. fold put. by rewrite Hput.
  - intros w form f u [b Hb]. unfold answer, after.
    rewrite create_property_run. cbv zeta.
    cbn [settle World.service World.respond]. by rewrite Hb.
Qed.

(** The C6 theorem at the sample service: the name the clock gives is
    taken, the upload errors, and nothing changes. *)
Lemma create_property_upload_error_witness :
  run World.service (create_property Sample.lake_form (Some Sample.photo) Sample.bob)
      Sample.w_taken
  = (Resolved (res_json 500
                 (error_body "Image upload failed: The resource already exists")),
     Sample.w_taken,
     [Called Date_now;
      Called (storage_upload "property-images" "public/1700000000000.png" [] "image/png")])
  /\ answer World.service
       (create_property Sample.lake_form (Some Sample.photo) Sample.bob) Sample.w_taken
     = Resolved (res_json 500
                   (error_body "Image upload failed: The resource already exists"))
  /\ after World.service
       (create_property Sample.lake_form (Some Sample.photo) Sample.bob) Sample.w_taken
     = Sample.w_taken.
Proof.
  split.
  - apply (proj1 create_property_upload_error World.world World.service
             Sample.w_taken Sample.w_taken Sample.w_taken Sample.lake_form Sample.photo
             Sample.bob 1700000000000 {| message := "The resource already exists" |});
      reflexivity.
  - apply (proj2 create_property_upload_error Sample.w_taken Sample.lake_form
             Sample.photo Sample.bob).
    exists []. reflexivity.
Defined.

(** When the upload call itself rejects, the handler's [catch] answers
    500 with the bare message, and again nothing is inserted. *)
Lemma create_property_upload_rejected {S : Type} (B : backend S) (s s1 s2 : S)
    (form : gmap string string) (f : file) (u : user) (now : Z) (e : js_error) :
  let put := storage_upload "property-images" (filePath now (originalname f))
               (buffer f) (mimetype f) in
  settle B Date_now s = (Resolved now, s1) ->
  settle B put s1 = (Rejected e, s2) ->
  run B (create_property form (Some f) u) s
  = (Resolved (res_json 500 (error_body (message e))), s2,
     [Called Date_now; Called put]).
Proof.
  intros put Hnow Hput. rewrite create_property_run. cbv zeta.
  rewrite Hnow. fold put. by rewrite Hput.
Qed.

(** ** The name of an uploaded image *)

Lemma occurs_app (c : ascii) (a b : string) :
  occurs c (a +:+ b) = occurs c a || occurs c b.
Proof.
  induction a as [|d a IH]; [done|].
  change (occurs c (String d a +:+ b)) with (Ascii.eqb d c || occurs c (a +:+ b)).
  rewrite IH. cbn [occurs]. by destruct (Ascii.eqb d c).
Qed.

(** A number is written with digits only. *)
Lemma pretty_N_go_no_dot (x : N) (s : string) :
  occurs "." s = false -> occurs "." (pretty_N_go x s) = false.
Proof.
  revert s. induction (N.lt_wf_0 x) as [x _ IH]; intros s Hs.
  assert (x = 0 ∨ 0 < x)%N as [->|Hx] by lia.
  - by rewrite pretty_N_go_0.
  - rewrite pretty_N_go_step by done. apply IH.
    + by apply N.div_lt.
    + cbn. rewrite Hs. unfold pretty_N_char. by repeat case_match.
Qed.

Lemma pretty_Z_no_dot (z : Z) : occurs "." (pretty z) = false.
Proof.
  assert (forall n : N, occurs "." (pretty n) = false) as HN.
  { intros n. unfold pretty, pretty_N. case_decide; [done|].
    by apply pretty_N_go_no_dot. }
  destruct z as [|p|p]; [done|apply HN|].
  change (pretty (Z.neg p)) with ("-" +:+ pretty (N.pos p)).
  rewrite occurs_app. cbn. apply HN.
Qed.

(** Two texts without a dot, each followed by a dot and more, are the
    same as soon as the wholes are. *)
Lemma dot_separates (a b x y : string) :
  occurs "." a = false -> occurs "." b = false ->
  a +:+ "." +:+ x = b +:+ "." +:+ y -> a = b /\ x = y.
Proof.
  assert (forall r, "" +:+ r = r) as Hnil by done.
  assert (forall h t r, String h t +:+ r = String h (t +:+ r)) as Hcons by done.
  revert b. induction a as [|c a IH]; intros [|d b];
    rewrite ?Hcons, ?Hnil; cbn [occurs].
  - by intros _ _ [= ->].
  - intros _ Hb [= <- _]. by cbn in Hb.
  - intros Ha _ [= -> _]. by cbn in Ha.
  - intros Ha Hb [= -> Heq].
    apply orb_false_iff in Ha as [_ Ha]. apply orb_false_iff in Hb as [_ Hb].
    by destruct (IH b Ha Hb Heq) as [-> ->].
Qed.

(** Two uploads get the same name only if the clock read the same
    instant for both, and then only if the names they came with end
    alike. *)
Lemma fileName_distinct (now1 now2 : Z) (name1 name2 : string) :
  fileName now1 name1 = fileName now2 name2 ->
  now1 = now2 /\ fileExt name1 = fileExt name2.
Proof.
  unfold fileName. intros Heq.
  apply dot_separates in Heq as [Hnow Hext]; try apply pretty_Z_no_dot.
  split; [|done]. by apply (inj pretty).
Qed.

Lemma split_last_extension (name : string) :
  last (split "." name)
  = Some (match Spec.extension name with Some e => e | None => name end)
  /\ (Spec.extension name = None -> split "." name = [name])
  /\ (is_Some (Spec.extension name) ->
      exists p q ps, split "." name = p :: q :: ps).
Proof.
  induction name as [|c r (IH1 & IH2 & IH3)]; cbn.
  { split; [done|]. split; [done|]. by intros [e He]. }
  destruct (Ascii.eqb c ".") eqn:Hc.
  - destruct (split "." r) as [|p ps] eqn:Hsplit; [done|].
    split; [|split].
    + cbn [last]. cbn [last] in IH1. rewrite IH1. by destruct (Spec.extension r).
    + by destruct (Spec.extension r).
    + intros _. by exists "", p, ps.
  - destruct (Spec.extension r) as [e|].
    + destruct IH3 as (p & q & ps & Hsplit); [done|]. rewrite Hsplit in *.
      split; [done|]. split; [done|]. intros _. by exists (String c p), q, ps.
    + rewrite (IH2 eq_refl). split; [done|]. split; [done|]. by intros [e He].
Qed.

(** What the code takes for the extension is the text after the last
    dot of a name that has one, and the whole name otherwise. *)
Lemma fileExt_extension (name : string) :
  fileExt name = match Spec.extension name with Some e => e | None => name end.
Proof.
  unfold fileExt, pop. by rewrite (proj1 (split_last_extension name)).
Qed.

(** Without an image the record handed to the table has the empty
    image URL, whatever the service answers. *)
Lemma create_property_without_image {S : Type} (B : backend S) (s : S)
    (form : gmap string string) (u : user) (e : event) (row : jsobj) :
  e ∈ trace B (create_property form None u) s -> row ∈ inserted e ->
  row !! "image_url" = Some (JStr "").
Proof.
  intros He Hrow.
  destruct (create_property_inserts B form None u s e row He Hrow) as (url & -> & Hurl).
  rewrite (Hurl eq_refl). apply newProperty_image_url.
Qed.

(** With an image, when the upload and the URL call go through, the
    record carries the URL the storage answered for the path made of
    the clock and of [fileExt]. *)
Lemma create_property_with_image {S : Type} (B : backend S) (s s1 s2 s3 : S)
    (form : gmap string string) (f : file) (u : user) (now : Z) (url : url_reply) :
  let path := "public/" +:+ pretty now +:+ "." +:+ fileExt (originalname f) in
  settle B Date_now s = (Resolved now, s1) ->
  settle B (storage_upload "property-images" path (buffer f) (mimetype f)) s1
  = (Resolved {| uploadError := None |}, s2) ->
  settle B (storage_getPublicUrl "property-images" path) s2 = (Resolved url, s3) ->
  trace B (create_property form (Some f) u) s
  = [Called Date_now;
     Called (storage_upload "property-images" path (buffer f) (mimetype f));
     Called (storage_getPublicUrl "property-images" path);
     Called (insert_select "properties" [newProperty (uid u) form (publicUrl url)])].
Proof.
  intros path Hnow Hput Hurl. rewrite create_property_trace. cbv zeta.
  rewrite Hnow. change (filePath now (originalname f)) with path.
  by rewrite Hput, Hurl.
Qed.

(** C5, at a file whose name has no dot.  The name has no extension,
    and the object is stored under the clock's value followed by a dot
    and the whole of the original name. *)
Theorem image_name_of_dotless_file :
  Spec.extension "photo" = None
  /\ fileExt "photo" = "photo"
  /\ trace World.service
       (create_property Sample.lake_form
          (Some {| originalname := "photo"; buffer := []; mimetype := "image/png" |})
          Sample.bob) Sample.w0
     = [Called Date_now;
        Called (storage_upload "property-images" "public/1700000000000.photo" []
                  "image/png");
        Called (storage_getPublicUrl "property-images" "public/1700000000000.photo");
        Called (insert_select "properties"
                  [newProperty "user-b" Sample.lake_form
                     "https://project.supabase.co/storage/v1/object/public/property-images/public/1700000000000.photo"])].
Proof. repeat split. Qed.

(** ** The numbers of a new record *)



(** ** What the two parsers read *)




















(** By contrast a title that is absent is a property with the value
    [undefined], which the JSON sent to the table does not hold. *)
Example absent_title_is_omitted :
  newProperty "U" ∅ "" !! "title" = Some JUndefined
  /\ World.sent (newProperty "U" ∅ "") !! "title" = None
  /\ World.sent (newProperty "U" ∅ "") !! "price" = Some JNull.
Proof. repeat split. Qed.

(** The example of the specification: the form of the lake house, no
    file, caller [U]. *)
#[warnings="-inexact-float"]
Example newProperty_lake_house :
  newProperty "U" Sample.lake_form ""
  = {[ "user_id" := JStr "U"; "title" := JStr "Lake House"; "price" := JNum 250000;
       "image_url" := JStr ""; "lat" := JNum 47.6; "lng" := JNum (-122.3) ]}.
Proof. vm_compute. reflexivity. Qed.

(** ** Updating a property *)

Lemma update_property_run {S : Type} (B : backend S) (id : string) (body : jsobj)
    (u : user) (s : S) :
  let patch : jsobj := {[ "title" := get body "title"; "price" := get body "price" ]} in
  let change := update_eq_select "properties" patch "id" id in
  run B (update_property id body u) s =
    match settle B change s with
    | (Rejected e, s1) => (Rejected e, s1, [Called change])
    | (Resolved {| data := _; error := Some e |}, s1) =>
        (Resolved (res_json 500 (error_body ("ERROR::::" +:+ message e))), s1,
         [Called change])
    | (Resolved {| data := Some l; error := None |}, s1) =>
        (Resolved (res_json 200
                     (match l !! 0%nat with Some o => JObj o | None => JUndefined end)),
         s1, [Called change])
    | (Resolved {| data := None; error := None |}, s1) =>
        (Rejected {| message := "Cannot read properties of null (reading '0')" |}, s1,
         [Called change])
    end.
Proof.
  unfold update_property. cbn.
  destruct (settle B _ s) as [[[[l|] [e|]]|e] s1]; by cbn.
Qed.

Lemma patched_other_field (column value : string) (patch row : jsobj) (k : string) :
  patch !! k = None -> World.patched column value patch row !! k = row !! k.
Proof.
  intros Hk. unfold World.patched, World.sent.
  destruct (World.matches column value row); [|done].
  rewrite lookup_union_r; [done|]. by rewrite lookup_omap, Hk.
Qed.

Lemma patched_field (column value : string) (patch row : jsobj) (k : string) (v : jsval) :
  World.matches column value row = true -> patch !! k = Some v ->
  World.patched column value patch row !! k
  = match json v with Some x => Some x | None => row !! k end.
Proof.
  intros Hm Hk. unfold World.patched, World.sent. rewrite Hm.
  rewrite lookup_union, lookup_omap, Hk. cbn.
  destruct (json v) as [x|]; cbn; [|by destruct (row !! k)].
  by destruct (row !! k).
Qed.

Lemma patched_no_match (column value : string) (patch : jsobj) (rows : list jsobj) :
  filter (fun r => World.matches column value r) rows = [] ->
  World.patched column value patch <$> rows = rows.
Proof.
  induction rows as [|r rows IH]; [done|].
  rewrite filter_cons, fmap_cons. unfold World.patched at 1.
  destruct (World.matches column value r); cbn; [done|].
  intros Hnil. f_equal. by apply IH.
Qed.

(** C7.  For every update request.  Against any service: the handler
    makes one call, the update of the rows whose [id] is the one of
    the path, with a patch that names [title] and [price] and nothing
    else; no lookup of the owner precedes it, and who the caller is
    makes no difference to what the handler does.  Against the
    reference service: every record keeps all its fields but [title]
    and [price]; a record with another identifier is left as it is; on
    the matching record [title] and [price] become what the body gives
    (a field the body does not give stays); nothing else of the
    service changes. *)
Theorem update_property_title_and_price_only :
  (forall (S : Type) (B : backend S) (s : S) (id : string) (body : jsobj) (u : user),
      exists patch : jsobj,
        trace B (update_property id body u) s
        = [Called (update_eq_select "properties" patch "id" id)]
        /\ patch !! "title" = Some (get body "title")
        /\ patch !! "price" = Some (get body "price")
        /\ (forall k, k <> "title" -> k <> "price" -> patch !! k = None))
  /\ (forall (id : string) (body : jsobj) (u u' : user),
      update_property id body u = update_property id body u')
  /\ (forall (w : World.world) (id : string) (body : jsobj) (u : user),
      let w' := after World.service (update_property id body u) w in
      (World.next_id w', World.sessions w', World.objects w', World.clock w')
      = (World.next_id w, World.sessions w, World.objects w, World.clock w)
      /\ length (World.properties w') = length (World.properties w)
      /\ forall (i : nat) (row : jsobj),
          World.properties w !! i = Some row ->
          exists row',
            World.properties w' !! i = Some row'
            /\ (forall k, k <> "title" -> k <> "price" -> row' !! k = row !! k)
            /\ (World.matches "id" id row = false -> row' = row)
            /\ (World.matches "id" id row = true ->
                row' !! "title"
                = match json (get body "title") with
                  | Some v => Some v
                  | None => row !! "title"
                  end
                /\ row' !! "price"
                   = match json (get body "price") with
                     | Some v => Some v
                     | None => row !! "price"
                     end)).
Proof.
  split; [|split].
  - intros S B s id body u. eexists. unfold trace. rewrite update_property_run.
    cbv zeta. split.
    + destruct (settle B _ s) as [[[[l|] [e|]]|e] s1]; reflexivity.
    + split; [apply lookup_insert_eq|].
      split; [by rewrite lookup_insert_ne, lookup_singleton_eq|].
      intros k Ht Hp. by rewrite lookup_insert_ne, lookup_singleton_ne.
  - done.
  - intros w id body u w'. subst w'. unfold after. rewrite update_property_run.
    cbv zeta. cbn [settle World.service World.respond fst snd World.set_properties
                   World.next_id World.sessions World.objects World.clock
                   World.properties].
    split; [done|]. split; [by rewrite length_fmap|].
    intros i row Hrow. eexists. split.
    { rewrite list_lookup_fmap, Hrow. reflexivity. }
    split; [|split].
    + intros k Ht Hp. apply patched_other_field.
      by rewrite lookup_insert_ne, lookup_singleton_ne.
    + intros Hm. unfold World.patched. by rewrite Hm.
    + intros Hm. split; by apply patched_field.
Qed.

(** Bob changes the title of the record alice owns. *)
Example update_property_of_another_owner :
  get Sample.lake_house "user_id" = JStr "user-a"
  /\ World.properties
       (after World.service
          (route (Some "Bearer token-b")
                 (Update "1" {[ "title" := JStr "Mine now"; "price" := JNum 1 ]}))
          Sample.w0)
     = [ <[ "title" := JStr "Mine now" ]> (<[ "price" := JNum 1 ]> Sample.lake_house) ].
Proof. split; vm_compute; reflexivity. Qed.

(** C9.  For every update request whose identifier matches no record.
    Against any service: when the update call resolves without an
    error to an empty list of rows, the handler answers 200 with the
    body [undefined], the first element of the empty list, which is
    sent as an empty body; it is not a 404.  Against the reference
    service: when no record has the identifier, that is the answer,
    and the records are left as they are. *)
Theorem update_property_of_missing_record :
  (forall (S : Type) (B : backend S) (s s1 : S) (id : string) (body : jsobj) (u : user),
      let change :=
        update_eq_select "properties"
          {[ "title" := get body "title"; "price" := get body "price" ]} "id" id in
      settle B change s = (Resolved {| data := Some []; error := None |}, s1) ->
      run B (update_property id body u) s
      = (Resolved {| status := 200; body := JUndefined |}, s1, [Called change]))
  /\ (forall (w : World.world) (id : string) (body : jsobj) (u : user),
      filter (fun r => World.matches "id" id r) (World.properties w) = [] ->
      answer World.service (update_property id body u) w
      = Resolved {| status := 200; body := JUndefined |}
      /\ World.properties (after World.service (update_property id body u) w)
         = World.properties w).
Proof.
  split.
  - intros S B s s1 id body u change Hchange.
    rewrite update_property_run. cbv zeta. fold change. by rewrite Hchange.
  - intros w id body u Hnone. unfold answer, after. rewrite update_property_run.
    cbv zeta. cbn [settle World.service World.respond fst snd]. rewrite Hnone.
    split; [done|]. cbn. by apply patched_no_match.
Qed.

(** The C9 theorem at the sample service: no record has the identifier
    9, the answer is 200 with no body, and the one record is as it was. *)
Lemma update_property_of_missing_record_witness :
  answer World.service
    (update_property "9" {[ "title" := JStr "Gone"; "price" := JNum 1 ]} Sample.bob)
    Sample.w0
  = Resolved {| status := 200; body := JUndefined |}
  /\ World.properties
       (after World.service
          (update_property "9" {[ "title" := JStr "Gone"; "price" := JNum 1 ]} Sample.bob)
          Sample.w0)
     = [Sample.lake_house].
Proof.
  apply (proj2 update_property_of_missing_record Sample.w0 "9"
           {[ "title" := JStr "Gone"; "price" := JNum 1 ]} Sample.bob).
  reflexivity.
Defined.

(** ** The token the guard sends *)

(** Against C10 as stated.  The second word of a header and what the
    guard sends differ: after two spaces the guard sends the empty
    string, after a tab it sends [undefined], and both valid tokens
    are turned away; from an empty header nothing is sent at all. *)
Lemma token_is_not_the_second_word :
  (Spec.second_word "Bearer  token-a" = Some "token-a"
   /\ run World.service (authenticate (Some "Bearer  token-a")) Sample.w0
      = (Resolved (Responded (res_json 401 (error_body "Invalid token"))), Sample.w0,
         [Called (auth_getUser (JStr ""))]))
  /\ (Spec.second_word ("Bearer" +:+ String "009" "token-a") = Some "token-a"
      /\ run World.service
           (authenticate (Some ("Bearer" +:+ String "009" "token-a"))) Sample.w0
         = (Resolved (Responded (res_json 401 (error_body "Invalid token"))), Sample.w0,
            [Called (auth_getUser JUndefined)]))
  /\ run World.service (authenticate (Some "")) Sample.w0
     = (Resolved (Responded (res_json 401 (error_body "No token provided"))), Sample.w0,
        []).
Proof. repeat split. Qed.

Lemma nonempty_header_truthy (h : string) :
  h <> "" -> negb (truthy (of_text (Some h))) = false.
Proof.
  intros Hh. cbn. destruct (String.eqb_spec h ""); [done|]. done.
Qed.

(** C10, as amended.  For every Authorization header that is not
    empty and whatever the service answers: the guard makes one call,
    asking the auth service to resolve the second piece of the header
    split at each single space ([undefined] when the header has no
    space, the empty string when two spaces follow the first piece);
    the first piece is never looked at, so when that call resolves to
    a user the request goes on as that user whatever the scheme; when
    it resolves to an error or to no user the answer is 401.  A header
    without a space gives the token [undefined], and the reference
    service, which resolves no such token, makes it a 401.  An empty
    header is answered 401 without any call. *)
Theorem guard_sends_second_piece :
  forall (S : Type) (B : backend S) (s : S),
    run B (authenticate (Some "")) s
    = (Resolved (Responded (res_json 401 (error_body "No token provided"))), s, [])
    /\
    forall h : string,
    h <> "" ->
    let token := of_text (split " " h !! 1%nat) in
    trace B (authenticate (Some h)) s = [Called (auth_getUser token)]
    /\ (forall (u : user) (s1 : S),
         settle B (auth_getUser token) s
         = (Resolved {| auth_user := Some u; auth_error := None |}, s1) ->
         answer B (authenticate (Some h)) s = Resolved (Next u))
    /\ (forall (reply : auth_reply) (s1 : S),
         settle B (auth_getUser token) s = (Resolved reply, s1) ->
         auth_user reply = None \/ auth_error reply <> None ->
         answer B (authenticate (Some h)) s
         = Resolved (Responded (res_json 401 (error_body "Invalid token"))))
    /\ (occurs " " h = false ->
        token = JUndefined
        /\ forall w : World.world,
            answer World.service (authenticate (Some h)) w
            = Resolved (Responded (res_json 401 (error_body "Invalid token")))).
Proof.
  intros S B s. split; [by rewrite authenticate_run|].
  intros h Hh token. unfold trace, answer.
  rewrite authenticate_run. cbv zeta. rewrite (nonempty_header_truthy h Hh).
  change (token_of (Some h)) with token.
  split; [|split; [|split]].
  - by destruct (settle B _ s) as [[[[u|] [e|]]|e] s1].
  - intros u s1 Hask. by rewrite Hask.
  - intros [[u|] [e|]] s1 Hask [Hu|He]; rewrite Hask; cbn in *; done.
  - intros Hspace.
    assert (token = JUndefined) as Htoken.
    { subst token. by rewrite (split_without_separator " " h Hspace). }
    split; [done|]. intros w. rewrite authenticate_run. cbv zeta.
    rewrite (nonempty_header_truthy h Hh).
    change (token_of (Some h)) with token. by rewrite Htoken.
Qed.

(** The C10 theorem at a header with the scheme Basic: the call
    carries the second piece, and the request goes on as alice. *)
Lemma guard_sends_second_piece_witness :
  trace World.service (authenticate (Some "Basic token-a")) Sample.w0
  = [Called (auth_getUser (JStr "token-a"))]
  /\ answer World.service (authenticate (Some "Basic token-a")) Sample.w0
     = Resolved (Next Sample.alice).
Proof.
  destruct (proj2 (guard_sends_second_piece World.world World.service Sample.w0)
              "Basic token-a" ltac:(discriminate)) as (Htrace & Hnext & _ & _).
  split; [exact Htrace|].
  exact (Hnext Sample.alice Sample.w0 eq_refl).
Defined.

(** ** The theorems at the sample service *)

(** C1 at the sample: bob is refused and the record stays; alice
    deletes her record. *)
Lemma delete_property_owner_only_witness :
  run World.service (delete_property "1" Sample.bob) Sample.w0
  = (Resolved (res_json 403 (error_body "Not authorized to delete this property")),
     Sample.w0,
     [Called (select_eq_single "properties" "user_id" "id" "1")])
  /\ run World.service (delete_property "1" Sample.alice) Sample.w0
     = (Resolved (res_json 200 (message_body "Property deleted")),
        World.set_properties Sample.w0 [],
        [Called (select_eq_single "properties" "user_id" "id" "1");
         Called (delete_eq "properties" "id" "1")])
  /\ run World.service (delete_property "7" Sample.alice) Sample.w0
     = (Resolved (res_json 404 (error_body "Property not found")),
        Sample.w0,
        [Called (select_eq_single "properties" "user_id" "id" "7")]).
Proof.
  split; [|split].
  - exact (proj2 delete_property_owner_only Sample.w0 "1" Sample.bob).
  - exact (proj2 delete_property_owner_only Sample.w0 "1" Sample.alice).
  - exact (proj2 delete_property_owner_only Sample.w0 "7" Sample.alice).
Defined.

(** C2 at the sample: the record 1 is returned, the identifier 7 is
    not found. *)
Lemma get_property_single_or_404_witness :
  answer World.service (get_property "1") Sample.w0
  = Resolved (res_json 200 (JObj Sample.lake_house))
  /\ answer World.service (get_property "7") Sample.w0
     = Resolved (res_json 404 (error_body "Property not found")).
Proof.
  split.
  - exact (proj1 get_property_single_or_404 Sample.w0 "1").
  - exact (proj1 get_property_single_or_404 Sample.w0 "7").
Defined.

(** C4 at the sample: bob creates a property and names alice as its
    owner in the body; the record inserted is bob's. *)
Lemma create_property_owner_is_caller_witness :
  trace World.service
    (create_property (<[ "user_id" := "user-a" ]> Sample.lake_form) None Sample.bob)
    Sample.w0
  = [Called (insert_select "properties"
       [newProperty "user-b" (<[ "user_id" := "user-a" ]> Sample.lake_form) ""])]
  /\ newProperty "user-b" (<[ "user_id" := "user-a" ]> Sample.lake_form) "" !! "user_id"
     = Some (JStr "user-b").
Proof.
  split; [reflexivity|].
  apply (proj1 create_property_owner_is_caller World.world World.service Sample.w0
           (<[ "user_id" := "user-a" ]> Sample.lake_form) None Sample.bob
           (Called (insert_select "properties"
              [newProperty "user-b" (<[ "user_id" := "user-a" ]> Sample.lake_form) ""]))).
  - apply list_elem_of_singleton. reflexivity.
  - apply list_elem_of_singleton. reflexivity.
Defined.

(** C3 at the sample, for a delete request: no header; a token nobody
    holds; the auth service down. *)
Lemma guard_rejects_what_does_not_resolve_witness :
  run World.service (route None (Delete "1")) Sample.w0
  = (Resolved (res_json 401 (error_body "No token provided")), Sample.w0, [])
  /\ (run World.service (route (Some "Bearer stolen") (Delete "1")) Sample.w0
      = (Resolved (res_json 401 (error_body "Invalid token")), Sample.w0,
         [Called (auth_getUser (JStr "stolen"))])
      /\ existsb is_mutation
           (trace World.service (route (Some "Bearer stolen") (Delete "1")) Sample.w0)
         = false)
  /\ (run World.service_auth_down (route (Some "Bearer token-a") (Delete "1")) Sample.w0
      = (Resolved (res_json 401 (error_body "Unauthorized")), Sample.w0,
         [Called (auth_getUser (JStr "token-a"))])
      /\ existsb is_mutation
           (trace World.service_auth_down
              (route (Some "Bearer token-a") (Delete "1")) Sample.w0)
         = false).
Proof.
  split; [|split].
  - exact (guard_rejects_what_does_not_resolve World.world World.service Sample.w0
             None (Delete "1")).
  - exact (guard_rejects_what_does_not_resolve World.world World.service Sample.w0
             (Some "Bearer stolen") (Delete "1")).
  - exact (guard_rejects_what_does_not_resolve World.world World.service_auth_down
             Sample.w0 (Some "Bearer token-a") (Delete "1")).
Defined.

(** * More of the code *)

(** ** The origin filter *)

Lemma same_value_zero_text (a : option string) (o : string) :
  same_value_zero (of_text a) (JStr o) = true <-> a = Some o.
Proof.
  destruct a as [x|]; cbn; [|done].
  destruct (String.eqb_spec x o) as [->|Hne]; [done|].
  split; [done|]. by intros [= ->].
Qed.

(** X1.  The origin filter lets a request through exactly when it
    carries no Origin header or an empty one, when its origin is the
    local development origin, or when it is, character for character,
    the configured front-end URL; with no front-end URL configured
    only the first three cases remain.  Every other origin is refused
    with an error that names it. *)
Theorem cors_origin_allow_list :
  forall FRONTEND_URL origin : option string,
    (cors_origin FRONTEND_URL origin = Allowed <->
       origin = None \/ origin = Some "" \/ origin = Some "http://localhost:3000"
       \/ origin = FRONTEND_URL)
    /\ (forall e, cors_origin FRONTEND_URL origin = Refused e ->
         exists o, origin = Some o
                   /\ message e = "Origin " +:+ o +:+ " not allowed by CORS").
Proof.
  intros env origin. unfold cors_origin, includes, allowedOrigins.
  destruct origin as [o|]; cbn [of_text truthy negb existsb default].
  2:{ split; [by split; [left|]|done]. }
  destruct (String.eqb_spec o "") as [->|Hempty]; cbn [negb].
  { split; [by split; [right; left|]|done]. }
  change (same_value_zero (JStr "http://localhost:3000") (JStr o))
    with (String.eqb "http://localhost:3000" o).
  destruct (String.eqb_spec "http://localhost:3000" o) as [<-|Hlocal]; cbn [orb].
  { split; [by split; [right; right; left|]|done]. }
  destruct (same_value_zero (of_text env) (JStr o)) eqn:Henv; cbn [orb].
  - apply same_value_zero_text in Henv as ->.
    split; [|done]. split; [intros _|done]. by right; right; right.
  - split.
    + split; [done|]. intros [H|[H|[H|H]]]; try by simplify_eq.
      symmetry in H. apply same_value_zero_text in H. congruence.
    + intros e [= <-]. by exists o.
Qed.

(** ** The login link *)

(** X2.  The login handler asks for a link only when the body holds a
    truthy [email]: otherwise it answers 400 [Email is required]
    without any call.  When it asks, the link is of type magiclink,
    for that email, redirecting to the front-end URL followed by
    [/dashboard]; an error of the service is answered 400 with the
    service's message; and the answer to a generated link is the same
    fixed message whatever the service returned: the link itself never
    reaches the client. *)
Theorem send_login_link_never_returns_link :
  forall (FRONTEND_URL : option string) (body : jsobj),
    match send_login_link FRONTEND_URL body with
    | Answered r =>
        truthy (get body "email") = false
        /\ r = res_json 400 (error_body "Email is required")
    | GenerateLink q k =>
        truthy (get body "email") = true
        /\ q = {| link_type := "magiclink";
                  link_email := get body "email";
                  link_redirectTo := default "undefined" FRONTEND_URL +:+ "/dashboard" |}
        /\ (forall r e, link_error r = Some e ->
              k (Resolved r) = Resolved (res_json 400 (error_body (message e))))
        /\ (forall r r', link_error r = None -> link_error r' = None ->
              k (Resolved r) = k (Resolved r')
              /\ k (Resolved r)
                 = Resolved (res_json 200
                               (message_body "Check your email for the magic link.")))
        /\ (forall e, k (Rejected e) = Rejected e)
    end.
Proof.
  intros env body. unfold send_login_link. cbv zeta.
  destruct (truthy (get body "email")); cbn [negb]; [|done].
  split; [done|]. split; [done|]. split; [|split; [|done]].
  - intros r e He. by rewrite He.
  - intros r r' Hr Hr'. by rewrite Hr, Hr'.
Qed.

(** ** Listing the properties *)

Lemma list_properties_run {S : Type} (B : backend S) (s : S) :
  let query := select_all "properties" "*" in
  run B list_properties s =
    match settle B query s with
    | (Rejected e, s1) =>
        (Resolved (res_json 500 (error_body (message e))), s1, [Called query])
    | (Resolved {| data := _; error := Some e |}, s1) =>
        (Resolved (res_json 500 (error_body (message e))), s1, [Called query])
    | (Resolved {| data := d; error := None |}, s1) =>
        (Resolved (res_json 200 (rows_value d)), s1, [Called query])
    end.
Proof.
  unfold list_properties. cbn.
  by destruct (settle B _ s) as [[[d [e|]]|e] s1].
Qed.

(** X3.  Listing the properties.  Against any service the handler
    makes one call, the select of every column of the table, and
    always answers: 500 with the message of the error the query
    reports, 500 with the message of the error the call rejects with,
    and otherwise 200 with the rows the query returned ([null] when it
    returned none), in the state the call left.  Against the
    reference service it answers 200 with every record of the table,
    in the table's order, and leaves the service as it was; with no
    records the answer is the empty array, not an error. *)
Theorem list_properties_all_or_500 :
  (forall (S : Type) (B : backend S) (s : S),
      let query := select_all "properties" "*" in
      run B list_properties s =
        match settle B query s with
        | (Rejected e, s1) =>
            (Resolved (res_json 500 (error_body (message e))), s1, [Called query])
        | (Resolved {| data := _; error := Some e |}, s1) =>
            (Resolved (res_json 500 (error_body (message e))), s1, [Called query])
        | (Resolved {| data := d; error := None |}, s1) =>
            (Resolved (res_json 200 (rows_value d)), s1, [Called query])
        end)
  /\ (forall (S : Type) (B : backend S) (s : S),
      trace B list_properties s = [Called (select_all "properties" "*")]
      /\ exists r, answer B list_properties s = Resolved r
                   /\ (status r = 200
                       \/ exists msg, r = res_json 500 (error_body msg)))
  /\ (forall w : World.world,
      run World.service list_properties w
      = (Resolved (res_json 200 (JArr (JObj <$> World.properties w))), w,
         [Called (select_all "properties" "*")]))
  /\ (forall w : World.world,
      World.properties w = [] ->
      answer World.service list_properties w = Resolved (res_json 200 (JArr []))).
Proof.
  split; [|split; [|split]].
  - intros S B s. apply list_properties_run.
  - intros S B s. unfold trace, answer. rewrite list_properties_run. cbv zeta.
    destruct (settle B _ s) as [[[d [e|]]|e] s1]; cbn.
    + split; [done|]. eexists; split; [done|]. right. by eexists.
    + split; [done|]. eexists; split; [done|]. by left.
    + split; [done|]. eexists; split; [done|]. right. by eexists.
  - intros w. rewrite list_properties_run. cbv zeta.
    cbn [settle World.service World.respond]. by rewrite project_all.
  - intros w Hw. unfold answer. rewrite list_properties_run. cbv zeta.
    cbn [settle World.service World.respond]. by rewrite Hw.
Qed.

(** X3 at the sample service: an empty table, and a service that
    cannot be reached. *)
Lemma list_properties_all_or_500_witness :
  answer World.service list_properties
    (World.set_properties Sample.w0 []) = Resolved (res_json 200 (JArr []))
  /\ run Cases.service_down list_properties Sample.w0
     = (Resolved (res_json 500 (error_body "fetch failed")), Sample.w0,
        [Called (select_all "properties" "*")]).
Proof.
  split.
  - apply (proj2 (proj2 (proj2 list_properties_all_or_500))
             (World.set_properties Sample.w0 [])).
    reflexivity.
  - exact (proj1 list_properties_all_or_500 World.world Cases.service_down Sample.w0).
Defined.

(** ** The status codes of the routes *)

Lemma insert_property_answer {S : Type} (B : backend S) (userId : string)
    (form : gmap string string) (imageUrl : string) (s : S) :
  match answer B (insert_property userId form imageUrl) s with
  | Resolved r => status r = 200 \/ status r = 500
  | Rejected _ => True
  end.
Proof.
  unfold answer, insert_property. cbn.
  destruct (settle B _ s) as [[[[l|] [e|]]|e] s1]; cbn; auto.
Qed.

(** The create handler always answers, with 200 or 500. *)
Lemma create_property_answer {S : Type} (B : backend S) (form : gmap string string)
    (image : option file) (u : user) (s : S) :
  exists r, answer B (create_property form image u) s = Resolved r
            /\ (status r = 200 \/ status r = 500).
Proof.
  unfold answer. rewrite create_property_run. cbv zeta.
  destruct image as [f|].
  - destruct (settle B Date_now s) as [[now|e] s1].
    2:{ eexists; split; [done|]. by right. }
    destruct (settle B _ s1) as [[[[e|]]|e] s2].
    1,3: eexists; split; [done|]; by right.
    destruct (settle B _ s2) as [[url|e] s3].
    2:{ eexists; split; [done|]. by right. }
    pose proof (insert_property_answer B (uid u) form (publicUrl url) s3) as Hans.
    unfold answer in Hans.
    destruct (run B (insert_property _ _ _) s3) as [[[r|e] s4] t]; cbn in *.
    + by exists r.
    + eexists; split; [done|]. by right.
  - pose proof (insert_property_answer B (uid u) form "" s) as Hans.
    unfold answer in Hans.
    destruct (run B (insert_property _ _ _) s) as [[[r|e] s4] t]; cbn in *.
    + by exists r.
    + eexists; split; [done|]. by right.
Qed.

Lemma handler_status {S : Type} (B : backend S) (q : guarded_request) (u : user)
    (s : S) (r : response) :
  answer B (handler_of q u) s = Resolved r -> status r ∈ codes q.
Proof.
  destruct q as [form image|id body|id]; cbn [handler_of codes].
  - destruct (create_property_answer B form image u s) as (r' & -> & Hr').
    intros [= <-]. destruct Hr' as [-> | ->]; set_solver.
  - unfold answer. rewrite update_property_run. cbv zeta.
    destruct (settle B _ s) as [[[[l|] [e|]]|e] s1]; cbn; intros [= <-]; cbn; set_solver.
  - unfold answer. rewrite delete_property_run. cbv zeta.
    destruct (settle B _ s) as [[[[existing|] [e|]]|e] s1]; cbn;
      try (intros [= <-]; cbn; set_solver).
    destruct (strict_eq _ _); cbn; [|intros [= <-]; cbn; set_solver].
    destruct (settle B _ s1) as [[[d [e|]]|e] s2]; cbn; intros [= <-]; cbn; set_solver.
Qed.

(** X4.  Whatever the service answers, a response of a guarded route
    carries 401 or one of the codes of its handler: 200 or 500 for a
    create or an update, 200, 403, 404 or 500 for a delete; a response
    to a get of one property carries 200 or 404.  None of these routes
    answers 400, whatever the fields hold. *)
Theorem route_status_codes :
  (forall (S : Type) (B : backend S) (s : S) (authorization : option string)
          (q : guarded_request) (r : response),
      answer B (route authorization q) s = Resolved r ->
      status r = 401 \/ status r ∈ codes q)
  /\ (forall (S : Type) (B : backend S) (s : S) (id : string) (r : response),
      answer B (get_property id) s = Resolved r -> status r = 200 \/ status r = 404).
Proof.
  split.
  - intros S B s authorization q r. unfold answer.
    rewrite route_guarded, guarded_run, authenticate_run. cbv zeta.
    destruct (negb (truthy (of_text authorization))); [intros [= <-]; by left|].
    destruct (settle B _ s) as [[[[u|] [e|]]|e] s1]; cbn;
      try (intros [= <-]; by left).
    pose proof (handler_status B q u s1) as Hq. unfold answer in Hq.
    destruct (run B (handler_of q u) s1) as [[o s2] t]; cbn in *.
    intros ->. right. by apply Hq.
  - intros S B s id r. unfold answer. rewrite get_property_run. cbv zeta.
    destruct (settle B _ s) as [[[d [e|]]|e] s1]; cbn; intros [= <-]; cbn; auto.
Qed.

Lemma route_status_codes_witness :
  403 = 401 \/ 403 ∈ codes (Delete "1").
Proof.
  apply (proj1 route_status_codes World.world World.service Sample.w0
           (Some "Bearer token-b") (Delete "1")
           (res_json 403 (error_body "Not authorized to delete this property"))).
  reflexivity.
Defined.

(** ** Calls that reject *)

(** X5.  Only the create and the list handler catch a call that
    rejects: they always answer.  The get, update and delete handlers
    have no [catch]: when one of their calls rejects (for the delete
    handler the lookup or, after it, the deletion), the handler's own
    promise rejects with the same error and no response is sent. *)
Theorem rejections_caught_or_not :
  (forall (S : Type) (B : backend S) (s : S) (form : gmap string string)
          (image : option file) (u : user),
      exists r, answer B (create_property form image u) s = Resolved r)
  /\ (forall (S : Type) (B : backend S) (s : S),
      exists r, answer B list_properties s = Resolved r)
  /\ (forall (S : Type) (B : backend S) (s s1 : S) (id : string) (e : js_error),
      settle B (select_eq_single "properties" "*" "id" id) s = (Rejected e, s1) ->
      answer B (get_property id) s = Rejected e)
  /\ (forall (S : Type) (B : backend S) (s s1 : S) (id : string) (body : jsobj)
             (u : user) (e : js_error),
      settle B (update_eq_select "properties"
                  {[ "title" := get body "title"; "price" := get body "price" ]}
                  "id" id) s = (Rejected e, s1) ->
      answer B (update_property id body u) s = Rejected e)
  /\ (forall (S : Type) (B : backend S) (s s1 : S) (id : string) (u : user)
             (e : js_error),
      settle B (select_eq_single "properties" "user_id" "id" id) s = (Rejected e, s1) ->
      answer B (delete_property id u) s = Rejected e)
  /\ (forall (S : Type) (B : backend S) (s s1 s2 : S) (id : string) (u : user)
             (existing : jsobj) (e : js_error),
      settle B (select_eq_single "properties" "user_id" "id" id) s
      = (Resolved {| data := Some existing; error := None |}, s1) ->
      strict_eq (get existing "user_id") (JStr (uid u)) = true ->
      settle B (delete_eq "properties" "id" id) s1 = (Rejected e, s2) ->
      answer B (delete_property id u) s = Rejected e).
Proof.
  split; [|split; [|split; [|split; [|split]]]].
  - intros S B s form image u.
    destruct (create_property_answer B form image u s) as (r & Hr & _). by exists r.
  - intros S B s. unfold answer. rewrite list_properties_run. cbv zeta.
    destruct (settle B _ s) as [[[d [e|]]|e] s1]; by eexists.
  - intros S B s s1 id e He. unfold answer. rewrite get_property_run. cbv zeta.
    by rewrite He.
  - intros S B s s1 id body u e He. unfold answer. rewrite update_property_run.
    cbv zeta. by rewrite He.
  - intros S B s s1 id u e He. unfold answer. rewrite delete_property_run.
    cbv zeta. by rewrite He.
  - intros S B s s1 s2 id u existing e Hfound Hown He. unfold answer.
    rewrite delete_property_run. cbv zeta. by rewrite Hfound, Hown, He.
Qed.

(** ** One request after another, on the reference service *)

Lemma insert_property_world (userId : string) (form : gmap string string)
    (imageUrl : string) (w : World.world) :
  let record := <[ "id" := JStr (pretty (World.next_id w)) ]>
                  (World.sent (newProperty userId form imageUrl)) in
  run World.service (insert_property userId form imageUrl) w
  = (Resolved (res_json 200 (JObj {[ "message" := JStr "Property added";
                                      "property" := JObj record ]})),
     {| World.properties := World.properties w ++ [record];
        World.next_id := World.next_id w + 1;
        World.sessions := World.sessions w; World.objects := World.objects w;
        World.clock := World.clock w; World.storage_url := World.storage_url w |},
     [Called (insert_select "properties" [newProperty userId form imageUrl])]).
Proof. reflexivity. Qed.

Lemma matches_own_id (id : string) (row : jsobj) :
  World.matches "id" id (<[ "id" := JStr id ]> row) = true.
Proof.
  unfold World.matches, get. rewrite lookup_insert_eq. cbn. apply String.eqb_refl.
Qed.

Lemma filter_matches_removed (column value : string) (rows : list jsobj) :
  filter (fun r => World.matches column value r)
         (filter (fun r => negb (World.matches column value r)) rows) = [].
Proof.
  induction rows as [|r rows IH]; [done|].
  rewrite (filter_cons (fun r => negb (World.matches column value r))).
  case_decide as Hkept; [|done].
  rewrite filter_cons. case_decide as Hm; [|done].
  by destruct (World.matches column value r).
Qed.

Lemma patched_matches (column value : string) (patch row : jsobj) :
  patch !! column = None ->
  World.matches column value (World.patched column value patch row)
  = World.matches column value row.
Proof.
  intros Hp. unfold World.matches, get. by rewrite patched_other_field.
Qed.

Lemma filter_patched (column value : string) (patch : jsobj) (rows : list jsobj) :
  patch !! column = None ->
  filter (fun r => World.matches column value r)
         (World.patched column value patch <$> rows)
  = World.patched column value patch
      <$> filter (fun r => World.matches column value r) rows.
Proof.
  intros Hp. induction rows as [|r rows IH]; [done|].
  rewrite fmap_cons, !filter_cons, patched_matches by done.
  case_decide; by rewrite IH.
Qed.

(** X6.  Create, then get.  On the reference service, when no record
    yet has the identifier the service is about to assign, a create
    request without an image answers 200 with the stored record (the
    assembled record as its JSON holds it, with its new identifier),
    and a get of that identifier right after returns this same record. *)
Theorem create_then_get :
  forall (w : World.world) (form : gmap string string) (u : user),
    let id := pretty (World.next_id w) in
    let record := <[ "id" := JStr id ]> (World.sent (newProperty (uid u) form "")) in
    filter (fun r => World.matches "id" id r) (World.properties w) = [] ->
    answer World.service (create_property form None u) w
    = Resolved (res_json 200 (JObj {[ "message" := JStr "Property added";
                                       "property" := JObj record ]}))
    /\ World.properties (after World.service (create_property form None u) w)
       = (World.properties w ++ [record])%list
    /\ answer World.service (get_property id)
         (after World.service (create_property form None u) w)
       = Resolved (res_json 200 (JObj record)).
Proof.
  intros w form u id record Hfresh. unfold answer, after.
  rewrite create_property_run. cbv zeta. rewrite insert_property_world. cbv zeta.
  cbn [fst snd]. split; [done|]. split; [done|].
  rewrite get_property_run. cbv zeta.
  cbn [settle World.service World.respond fst snd World.properties].
  rewrite project_all, filter_app, Hfresh, filter_cons.
  rewrite decide_True by (by rewrite matches_own_id). done.
Qed.

Lemma create_then_get_witness :
  answer World.service (get_property "2")
    (after World.service (create_property Sample.lake_form None Sample.bob) Sample.w0)
  = Resolved (res_json 200
      (JObj (<[ "id" := JStr "2" ]>
               (World.sent (newProperty "user-b" Sample.lake_form ""))))).
Proof.
  apply (create_then_get Sample.w0 Sample.lake_form Sample.bob). reflexivity.
Defined.

(** X7.  Delete, then get or delete again.  On the reference service,
    once a delete request has answered 200, a get of the same
    identifier answers 404, and so does a second delete, whoever
    asks. *)
Theorem delete_then_gone :
  forall (w : World.world) (id : string) (u u' : user) (r : response),
    answer World.service (delete_property id u) w = Resolved r ->
    status r = 200 ->
    let w' := after World.service (delete_property id u) w in
    answer World.service (get_property id) w'
    = Resolved (res_json 404 (error_body "Property not found"))
    /\ answer World.service (delete_property id u') w'
       = Resolved (res_json 404 (error_body "Property not found")).
Proof.
  intros w id u u' r. unfold answer, after. rewrite delete_property_run. cbv zeta.
  cbn [settle World.service World.respond].
  destruct (filter _ (World.properties w)) as [|row [|row' rows]] eqn:Hrows.
  - cbn. by intros [= <-].
  - rewrite single_one.
    destruct (strict_eq _ _); cbn [fst snd]; [|by intros [= <-]].
    intros _ _. rewrite get_property_run, delete_property_run. cbv zeta.
    cbn [settle World.service World.respond World.set_properties World.properties].
    by rewrite project_all, !filter_matches_removed.
  - rewrite single_none_or_many by done. cbn. by intros [= <-].
Qed.

Lemma delete_then_gone_witness :
  answer World.service (get_property "1")
    (after World.service (delete_property "1" Sample.alice) Sample.w0)
  = Resolved (res_json 404 (error_body "Property not found"))
  /\ answer World.service (delete_property "1" Sample.bob)
       (after World.service (delete_property "1" Sample.alice) Sample.w0)
     = Resolved (res_json 404 (error_body "Property not found")).
Proof.
  apply (delete_then_gone Sample.w0 "1" Sample.alice Sample.bob
           (res_json 200 (message_body "Property deleted"))); reflexivity.
Defined.

(** X8.  Update, then get.  On the reference service, when one record
    has the identifier, an update answers 200 with that record as
    patched (the title and the price of the body over the record's
    other fields), and a get of the identifier right after returns the
    same record. *)
Theorem update_then_get :
  forall (w : World.world) (id : string) (body : jsobj) (u : user) (row : jsobj),
    let patch : jsobj := {[ "title" := get body "title"; "price" := get body "price" ]} in
    filter (fun r => World.matches "id" id r) (World.properties w) = [row] ->
    answer World.service (update_property id body u) w
    = Resolved (res_json 200 (JObj (World.sent patch ∪ row)))
    /\ answer World.service (get_property id)
         (after World.service (update_property id body u) w)
       = Resolved (res_json 200 (JObj (World.sent patch ∪ row))).
Proof.
  intros w id body u row patch Hrow.
  assert (World.matches "id" id row = true) as Hm.
  { assert (row ∈ filter (fun r => World.matches "id" id r) (World.properties w)) as Hin
      by (rewrite Hrow; apply list_elem_of_singleton; done).
    apply list_elem_of_filter in Hin as [Hin _]. by destruct (World.matches "id" id row). }
  assert (World.patched "id" id patch row = World.sent patch ∪ row) as Hpatched.
  { unfold World.patched. by rewrite Hm. }
  assert (patch !! "id" = None) as Hid by done.
  unfold answer, after. rewrite update_property_run. cbv zeta. fold patch.
  cbn [settle World.service World.respond fst snd]. rewrite Hrow.
  cbn [fmap list_fmap lookup list_lookup]. rewrite Hpatched. split; [done|].
  rewrite get_property_run. cbv zeta.
  cbn [settle World.service World.respond fst snd World.set_properties World.properties].
  rewrite project_all, filter_patched, Hrow by done.
  cbn [fmap list_fmap]. by rewrite Hpatched.
Qed.

Lemma update_then_get_witness :
  answer World.service (get_property "1")
    (after World.service
       (update_property "1" {[ "title" := JStr "Boat House" ]} Sample.bob) Sample.w0)
  = Resolved (res_json 200
      (JObj (World.sent
               {[ "title" := get {[ "title" := JStr "Boat House" ]} "title";
                  "price" := get {[ "title" := JStr "Boat House" ]} "price" ]}
             ∪ Sample.lake_house))).
Proof.
  exact (proj2 (update_then_get Sample.w0 "1" {[ "title" := JStr "Boat House" ]}
                  Sample.bob Sample.lake_house eq_refl)).
Defined.

(** X5 at a service that cannot be reached: the get and the delete
    handler send no response. *)
Lemma rejections_caught_or_not_witness :
  answer Cases.service_down (get_property "1") Sample.w0
  = Rejected {| message := "fetch failed" |}
  /\ answer Cases.service_down (delete_property "1" Sample.alice) Sample.w0
     = Rejected {| message := "fetch failed" |}.
Proof.
  split.
  - apply (proj1 (proj2 (proj2 rejections_caught_or_not)) World.world
             Cases.service_down Sample.w0 Sample.w0 "1"). reflexivity.
  - apply (proj1 (proj2 (proj2 (proj2 (proj2 rejections_caught_or_not)))) World.world
             Cases.service_down Sample.w0 Sample.w0 "1" Sample.alice). reflexivity.
Defined.

(** ** Records nobody owns *)

(** X9.  Against any service: when the record the lookup resolves to
    has a [user_id] that is not a string ([null], absent, a number),
    the delete handler answers 403 to every user and the lookup is its
    only call: such a record cannot be deleted through this route. *)
Theorem delete_property_of_nobody :
  forall (S : Type) (B : backend S) (s s1 : S) (id : string) (existing : jsobj),
    let lookup := select_eq_single "properties" "user_id" "id" id in
    settle B lookup s = (Resolved {| data := Some existing; error := None |}, s1) ->
    (forall owner : string, get existing "user_id" <> JStr owner) ->
    forall u : user,
      run B (delete_property id u) s
      = (Resolved (res_json 403 (error_body "Not authorized to delete this property")),
         s1, [Called lookup]).
Proof.
  intros S B s s1 id existing lookup Hfound Hnobody u.
  rewrite delete_property_run. cbv zeta. fold lookup. rewrite Hfound.
  destruct (get existing "user_id") as [| | | |owner| |] eqn:Hcell; try done.
  by destruct (Hnobody owner).
Qed.

Lemma delete_property_of_nobody_witness :
  run World.service (delete_property "3" Sample.alice) Cases.w_abandoned
  = (Resolved (res_json 403 (error_body "Not authorized to delete this property")),
     Cases.w_abandoned,
     [Called (select_eq_single "properties" "user_id" "id" "3")]).
Proof.
  apply (delete_property_of_nobody World.world World.service Cases.w_abandoned
           Cases.w_abandoned "3" {[ "user_id" := JNull ]}).
  - reflexivity.
  - intros owner. discriminate.
Defined.

(** ** An upload whose record is refused *)

Lemma create_with_image_world (w : World.world) (form : gmap string string)
    (f : file) (u : user) :
  let path := filePath (World.clock w) (originalname f) in
  let url := World.storage_url w +:+ "/object/public/" +:+ "property-images"
             +:+ "/" +:+ path in
  let record := <[ "id" := JStr (pretty (World.next_id w)) ]>
                  (World.sent (newProperty (uid u) form url)) in
  World.objects w !! path = None ->
  run World.service (create_property form (Some f) u) w
  = (Resolved (res_json 200 (JObj {[ "message" := JStr "Property added";
                                      "property" := JObj record ]})),
     {| World.properties := World.properties w ++ [record];
        World.next_id := World.next_id w + 1;
        World.sessions := World.sessions w;
        World.objects := <[ path := buffer f ]> (World.objects w);
        World.clock := World.clock w; World.storage_url := World.storage_url w |},
     [Called Date_now;
      Called (storage_upload "property-images" path (buffer f) (mimetype f));
      Called (storage_getPublicUrl "property-images" path);
      Called (insert_select "properties" [newProperty (uid u) form url])]).
Proof.
  intros path url record Hfree. rewrite create_property_run. cbv zeta.
  cbn [settle World.service World.respond]. fold path. rewrite Hfree.
  cbn [publicUrl]. by rewrite insert_property_world.
Qed.

(** X10.  The upload is not undone.  Against any service: when the
    upload and the URL call went through and the insertion then
    resolves with an error, the handler answers 500 with the message
    of that error, and the insertion is its last call: nothing removes
    the object that was just stored.  On the reference service with a
    table that refuses insertions, the object is in the store
    afterwards and the table is as before. *)
Theorem upload_not_rolled_back :
  (forall (S : Type) (B : backend S) (s s1 s2 s3 s4 : S) (form : gmap string string)
          (f : file) (u : user) (now : Z) (url : url_reply)
          (d : option (list jsobj)) (e : js_error),
      let path := filePath now (originalname f) in
      let put := storage_upload "property-images" path (buffer f) (mimetype f) in
      let ask := storage_getPublicUrl "property-images" path in
      let ins := insert_select "properties" [newProperty (uid u) form (publicUrl url)] in
      settle B Date_now s = (Resolved now, s1) ->
      settle B put s1 = (Resolved {| uploadError := None |}, s2) ->
      settle B ask s2 = (Resolved url, s3) ->
      settle B ins s3 = (Resolved {| data := d; error := Some e |}, s4) ->
      run B (create_property form (Some f) u) s
      = (Resolved (res_json 500 (error_body (message e))), s4,
         [Called Date_now; Called put; Called ask; Called ins]))
  /\ (forall (w : World.world) (form : gmap string string) (f : file) (u : user),
      let path := filePath (World.clock w) (originalname f) in
      let w' := after Cases.service_insert_refused (create_property form (Some f) u) w in
      World.objects w !! path = None ->
      answer Cases.service_insert_refused (create_property form (Some f) u) w
      = Resolved (res_json 500 (error_body "permission denied for table properties"))
      /\ World.objects w' !! path = Some (buffer f)
      /\ World.properties w' = World.properties w).
Proof.
  split.
  - intros S B s s1 s2 s3 s4 form f u now url d e path put ask ins Hnow Hput Hask Hins.
    rewrite create_property_run. cbv zeta. rewrite Hnow. fold path put ask.
    rewrite Hput, Hask. unfold insert_property. cbn. fold ins. by rewrite Hins.
  - intros w form f u path w' Hfree. subst w'. unfold answer, after.
    rewrite create_property_run. cbv zeta.
    cbn [settle Cases.service_insert_refused Cases.respond_insert_refused World.respond].
    fold path. rewrite Hfree. cbn. split; [done|]. split; [|done].
    apply lookup_insert_eq.
Qed.

Lemma upload_not_rolled_back_witness :
  World.objects
    (after Cases.service_insert_refused
       (create_property Sample.lake_form (Some Sample.photo) Sample.bob) Sample.w0)
  !! "public/1700000000000.png" = Some []
  /\ World.properties
       (after Cases.service_insert_refused
          (create_property Sample.lake_form (Some Sample.photo) Sample.bob) Sample.w0)
     = [Sample.lake_house].
Proof.
  exact (proj2 (proj2 upload_not_rolled_back Sample.w0 Sample.lake_form Sample.photo
                  Sample.bob eq_refl)).
Defined.

(** X11.  Two uploads in the same instant.  On the reference service,
    after a create with an image whose path was free, a second create
    read at the same clock value with an image of the same extension
    finds the path taken: it answers 500 with the upload message,
    makes no insertion, and leaves the service as the first request
    left it. *)
Theorem second_upload_in_same_instant_fails :
  forall (w : World.world) (form form' : gmap string string) (f f' : file)
         (u u' : user),
    let w1 := after World.service (create_property form (Some f) u) w in
    World.objects w !! filePath (World.clock w) (originalname f) = None ->
    fileExt (originalname f') = fileExt (originalname f) ->
    run World.service (create_property form' (Some f') u') w1
    = (Resolved (res_json 500
                   (error_body "Image upload failed: The resource already exists")),
       w1,
       [Called Date_now;
        Called (storage_upload "property-images"
                  (filePath (World.clock w) (originalname f)) (buffer f') (mimetype f'))]).
Proof.
  intros w form form' f f' u u' w1 Hfree Hext. subst w1. unfold after.
  rewrite (create_with_image_world w form f u Hfree). cbn [fst snd].
  rewrite create_property_run. cbv zeta.
  cbn [settle World.service World.respond World.clock World.objects].
  assert (filePath (World.clock w) (originalname f')
          = filePath (World.clock w) (originalname f)) as ->.
  { unfold filePath, fileName. by rewrite Hext. }
  by rewrite lookup_insert_eq.
Qed.

Lemma second_upload_in_same_instant_fails_witness :
  answer World.service
    (create_property Sample.lake_form (Some Sample.photo) Sample.alice)
    (after World.service
       (create_property Sample.lake_form (Some Sample.photo) Sample.bob) Sample.w0)
  = Resolved (res_json 500
                (error_body "Image upload failed: The resource already exists")).
Proof.
  unfold answer.
  by rewrite (second_upload_in_same_instant_fails Sample.w0 Sample.lake_form
                Sample.lake_form Sample.photo Sample.photo Sample.bob Sample.alice
                eq_refl eq_refl).
Defined.

(** ** The extension and the object name *)

Lemma extension_is_suffix (name : string) :
  match Spec.extension name with
  | Some e => occurs "." e = false /\ exists stem, name = stem +:+ "." +:+ e
  | None => occurs "." name = false
  end.
Proof.
  induction name as [|c r IH]; [done|]. cbn [Spec.extension occurs].
  destruct (Spec.extension r) as [e|].
  - destruct IH as (He & stem & ->). split; [done|]. by exists (String c stem).
  - destruct (Ascii.eqb_spec c ".") as [->|Hc]; [|done].
    split; [done|]. by exists "".
Qed.

(** X12.  What the create handler takes for the extension of the
    uploaded file never contains a dot; when the name contains a dot
    it is what follows the last one, so the name is some stem, a dot
    and it; when the name contains no dot it is the whole name. *)
Theorem fileExt_after_last_dot :
  forall name : string,
    occurs "." (fileExt name) = false
    /\ (occurs "." name = true -> exists stem, name = stem +:+ "." +:+ fileExt name)
    /\ (occurs "." name = false -> fileExt name = name).
Proof.
  intros name. rewrite fileExt_extension.
  pose proof (extension_is_suffix name) as H.
  destruct (Spec.extension name) as [e|].
  - destruct H as (He & stem & Hname). split; [done|]. split.
    + intros _. by exists stem.
    + intros Hno. rewrite Hname, !occurs_app in Hno. cbn in Hno.
      by rewrite orb_true_r in Hno.
  - split; [done|]. split; [|done]. by rewrite H.
Qed.


(** ** A well-formed Bearer header *)

Lemma split_prefix (c : ascii) (a b : string) :
  occurs c a = false -> split c (a +:+ String c b) = a :: split c b.
Proof.
  assert (forall r, "" +:+ r = r) as Hnil by done.
  assert (forall h t r, String h t +:+ r = String h (t +:+ r)) as Hcons by done.
  induction a as [|d a IH]; rewrite ?Hcons, ?Hnil; cbn [occurs split].
  - intros _. by rewrite Ascii.eqb_refl.
  - destruct (Ascii.eqb d c); cbn [orb]; [done|]. intros Ha. by rewrite (IH Ha).
Qed.

(** X14.  From a header made of the word Bearer, one space and a token
    without a space, the guard takes exactly that token, and whatever
    follows a further space is ignored.  On the reference service a
    request with such a header whose token belongs to a user is
    answered as the handler answers that user, after the one auth
    call. *)
Theorem bearer_token_admitted :
  (forall t : string,
      occurs " " t = false -> token_of (Some ("Bearer " +:+ t)) = JStr t)
  /\ (forall t rest : string,
      occurs " " t = false ->
      token_of (Some ("Bearer " +:+ t +:+ " " +:+ rest)) = JStr t)
  /\ (forall (w : World.world) (t : string) (u : user) (q : guarded_request),
      occurs " " t = false -> t <> "" ->
      World.sessions w !! t = Some u ->
      run World.service (route (Some ("Bearer " +:+ t)) q) w
      = (let '(o, w', tr) := run World.service (handler_of q u) w in
         (o, w', Called (auth_getUser (JStr t)) :: tr))).
Proof.
  assert (forall t, occurs " " t = false ->
            token_of (Some ("Bearer " +:+ t)) = JStr t) as Htoken.
  { intros t Ht. unfold token_of. cbn [mbind option_bind].
    change ("Bearer " +:+ t) with ("Bearer" +:+ String " " t).
    rewrite split_prefix by done. by rewrite (split_without_separator " " t Ht). }
  split; [done|]. split.
  - intros t rest Ht. unfold token_of. cbn [mbind option_bind].
    change ("Bearer " +:+ t +:+ " " +:+ rest)
      with ("Bearer" +:+ String " " (t +:+ String " " rest)).
    rewrite split_prefix by done. by rewrite split_prefix.
  - intros w t u q Ht Hne Hu.
    rewrite route_guarded, guarded_run, authenticate_run. cbv zeta.
    rewrite (Htoken t Ht).
    change (negb (truthy (of_text (Some ("Bearer " +:+ t))))) with false. cbv iota.
    cbn [settle World.service World.respond World.resolve_token].
    destruct (String.eqb_spec t "") as [->|_]; [done|]. rewrite Hu.
    destruct (run World.service (handler_of q u) w) as [[o w'] tr]. done.
Qed.

Lemma bearer_token_admitted_witness :
  run World.service (route (Some ("Bearer " +:+ "token-a")) (Delete "1")) Sample.w0
  = (Resolved (res_json 200 (message_body "Property deleted")),
     World.set_properties Sample.w0 [],
     [Called (auth_getUser (JStr "token-a"));
      Called (select_eq_single "properties" "user_id" "id" "1");
      Called (delete_eq "properties" "id" "1")]).
Proof.
  exact (proj2 (proj2 bearer_token_admitted) Sample.w0 "token-a" Sample.alice
           (Delete "1") eq_refl ltac:(discriminate) eq_refl).
Defined.

(** ** A price that is not a number *)




(** ** Reading changes nothing *)

(** X16.  The two read handlers make one call each, a select, and
    never the auth call: they answer without a token.  On the
    reference service they leave everything as it was. *)
Theorem reads_change_nothing :
  (forall (S : Type) (B : backend S) (s : S) (id : string),
      trace B (get_property id) s = [Called (select_eq_single "properties" "*" "id" id)]
      /\ trace B list_properties s = [Called (select_all "properties" "*")])
  /\ (forall (w : World.world) (id : string),
      after World.service (get_property id) w = w
      /\ after World.service list_properties w = w).
Proof.
  split.
  - intros S B s id. unfold trace. rewrite get_property_run, list_properties_run.
    cbv zeta. split.
    + by destruct (settle B _ s) as [[[d [e|]]|e] s1].
    + by destruct (settle B (select_all _ _) s) as [[[d [e|]]|e] s1].
  - intros w id. unfold after. rewrite get_property_run, list_properties_run.
    cbv zeta. cbn [settle World.service World.respond]. split.
    + by destruct (World.single _) as [d [e|]].
    + done.
Qed.

